(** * Users CRUD service (server_mongodb.js): validators, handlers, store

    A shallow embedding of the request handlers of [server_mongodb.js]
    and of the pieces of the JavaScript runtime and of the Mongoose
    collection they rely on, followed by the properties of the service.

    Conventions of the embedding.
    - A JavaScript string is a [string]; its characters are read as
      UTF-16 code units below 256 (the Latin-1 range), so [String.length]
      is [.length], and white space, [trim] and [toLowerCase] are those of
      ECMAScript restricted to that range.
    - A request body is the triple of its [name], [email] and [age]
      properties, each a JSON value or [undefined] when absent.
    - The collection is the list of its documents in insertion order; a
      loaded document is addressed by its position (the role of [_id]).
    - The value of [uuidv4()] and the clock reading of a request are
      inputs of its handler.
    - A handler runs in a small monad that threads the collection and the
      trace of collection calls, and in which a JavaScript exception is a
      [Throw] completion, turned into the 500 envelope by the handler's
      [try]/[catch].
    - Saving a document enforces the unique indexes the schema declares
      on [id] and [email]; the validators of the schema are subsumed by
      [validateUser] on every value that reaches a save. *)

From Stdlib Require Import ZArith Ascii String Bool Lia.
From stdpp Require Import base list strings pretty.

Set Warnings "-register-all".
Local Open Scope Z_scope.

(** ** JavaScript values *)

(** A number, as far as this program can observe one: integer-valued
    ([Number.isInteger] holds, compared and stored), or any other number,
    which is truthy, fails [Number.isInteger], and is only ever rendered
    as text. *)
Inductive jsnum : Type :=
| NInt (z : Z)
| NFrac (text : string).

Inductive jsval : Type :=
| JUndefined
| JNull
| JBool (b : bool)
| JNum (n : jsnum)
| JStr (s : string)
| JArr (elems : list jsval)
| JObj (props : list (string * jsval)).

Inductive jserror : Type :=
| TypeError
| CastError
| DuplicateKey
| DocumentNotFound.

(** Completion of an evaluation: a value, or a thrown exception. *)
Inductive completion (A : Type) : Type :=
| Normal (a : A)
| Throw (e : jserror).
Arguments Normal {A} a.
Arguments Throw {A} e.

Module JS.

(** ToBoolean. *)
Definition truthy (v : jsval) : bool :=
  match v with
  | JUndefined | JNull => false
  | JBool b => b
  | JNum (NInt z) => negb (z =? 0)
  | JNum (NFrac _) => true
  | JStr s => negb (String.eqb s "")
  | JArr _ | JObj _ => true
  end.

(** [v !== undefined]. *)
Definition defined (v : jsval) : bool :=
  match v with JUndefined => false | _ => true end.

Definition code (c : ascii) : N := N_of_ascii c.

(** WhiteSpace and LineTerminator code units below 256:
    TAB, LF, VT, FF, CR, SP, NBSP. *)
Definition is_space (c : ascii) : bool :=
  let n := code c in
  (((9 <=? n) && (n <=? 13)) || (n =? 32) || (n =? 160))%N.

(** Lower case of a code unit: [A]-[Z], and the capitals of the
    Latin-1 block (192 to 222, the multiplication sign 215 apart). *)
Definition lower_char (c : ascii) : ascii :=
  let n := code c in
  if (((65 <=? n) && (n <=? 90))
      || ((192 <=? n) && (n <=? 222) && negb (n =? 215)))%N
  then ascii_of_N (n + 32) else c.

(** String.prototype.toLowerCase. *)
Fixpoint toLowerCase (s : string) : string :=
  match s with
  | EmptyString => EmptyString
  | String c s' => String (lower_char c) (toLowerCase s')
  end.

Fixpoint trimStart (s : string) : string :=
  match s with
  | EmptyString => EmptyString
  | String c s' => if is_space c then trimStart s' else s
  end.

Fixpoint trimEnd (s : string) : string :=
  match s with
  | EmptyString => EmptyString
  | String c s' =>
      match trimEnd s' with
      | EmptyString => if is_space c then EmptyString else String c EmptyString
      | t => String c t
      end
  end.

(** String.prototype.trim. *)
Definition trim (s : string) : string := trimEnd (trimStart s).

(** Number::toString, radix 10 (plain decimal digits for an integer). *)
Definition NumberToString (n : jsnum) : string :=
  match n with
  | NInt z => pretty z
  | NFrac text => text
  end.

Definition has_own (k : string) (props : list (string * jsval)) : bool :=
  existsb (fun kv => String.eqb (fst kv) k) props.

(** ToString of a JSON value. An array is joined with commas, [null]
    and [undefined] elements giving the empty string. A plain object is
    ["[object Object]"], unless it has an own [toString] property:
    that property is not callable, neither conversion method yields a
    primitive, and ToPrimitive throws. *)
Fixpoint ToString (v : jsval) : completion string :=
  match v with
  | JUndefined => Normal "undefined"
  | JNull => Normal "null"
  | JBool true => Normal "true"
  | JBool false => Normal "false"
  | JNum n => Normal (NumberToString n)
  | JStr s => Normal s
  | JArr elems =>
      let element x :=
        match x with
        | JUndefined | JNull => Normal ""
        | _ => ToString x
        end in
      (fix join (l : list jsval) : completion string :=
         match l with
         | [] => Normal ""
         | [x] => element x
         | x :: rest =>
             match element x with
             | Throw e => Throw e
             | Normal sx =>
                 match join rest with
                 | Throw e => Throw e
                 | Normal sr => Normal (sx +:+ "," +:+ sr)
                 end
             end
         end) elems
  | JObj props =>
      if has_own "toString" props then Throw TypeError
      else Normal "[object Object]"
  end.

(** A method call [v.m()] for a method of String.prototype: a
    TypeError unless [v] is a string. *)
Definition call_string_method (m : string -> string) (v : jsval)
  : completion string :=
  match v with
  | JStr s => Normal (m s)
  | _ => Throw TypeError
  end.

(** [Number.isInteger]. *)
Definition Number_isInteger (v : jsval) : bool :=
  match v with JNum (NInt _) => true | _ => false end.

(** [v > lo] and [v < hi] for an integer-valued number [v]. *)
Definition num_gt (v : jsval) (lo : Z) : bool :=
  match v with JNum (NInt z) => lo <? z | _ => false end.
Definition num_lt (v : jsval) (hi : Z) : bool :=
  match v with JNum (NInt z) => z <? hi | _ => false end.

End JS.

(** ** Regular expressions

    The two regular-expression literals of the program are anchored
    sequences of quantified character classes, [c+] or [c{n}]; they are
    matched by a backtracking matcher in continuation-passing style. *)
Module RegExp.

Inductive quantifier : Type :=
| Exactly (n : nat)
| OneOrMore.

Definition piece : Type := (ascii -> bool) * quantifier.
Definition regexp : Type := list piece.

Fixpoint exactly (p : ascii -> bool) (n : nat) (k : string -> bool)
         (s : string) : bool :=
  match n with
  | O => k s
  | S n' =>
      match s with
      | EmptyString => false
      | String c s' => p c && exactly p n' k s'
      end
  end.

(** Greedy [c+]: take one more character first, else continue. *)
Fixpoint plus (p : ascii -> bool) (k : string -> bool) (s : string) : bool :=
  match s with
  | EmptyString => false
  | String c s' => p c && (plus p k s' || k s')
  end.

Definition at_end (s : string) : bool :=
  match s with EmptyString => true | _ => false end.

(** Match of [^ r $] against the whole of [s]. *)
Fixpoint exec (r : regexp) : string -> bool :=
  match r with
  | [] => at_end
  | (p, Exactly n) :: r' => exactly p n (exec r')
  | (p, OneOrMore) :: r' => plus p (exec r')
  end.

(** RegExp.prototype.test: the argument is converted with ToString. *)
Definition test (r : regexp) (v : jsval) : completion bool :=
  match JS.ToString v with
  | Normal s => Normal (exec r s)
  | Throw e => Throw e
  end.

Definition lit (a : ascii) : piece := (Ascii.eqb a, Exactly 1).

End RegExp.

(** ** Validation functions (server_mongodb.js, lines 77-113) *)

(** The class [[^\s@]]. *)
Definition not_space_at (c : ascii) : bool :=
  negb (JS.is_space c) && negb (Ascii.eqb c "@").

(** [/^[^\s@]+@[^\s@]+\.[^\s@]+$/] *)
Definition emailRegex : RegExp.regexp :=
  [ (not_space_at, RegExp.OneOrMore); RegExp.lit "@";
    (not_space_at, RegExp.OneOrMore); RegExp.lit ".";
    (not_space_at, RegExp.OneOrMore) ].

Definition isValidEmail (email : jsval) : completion bool :=
  RegExp.test emailRegex email.

Definition isValidAge (age : jsval) : bool :=
  JS.Number_isInteger age && JS.num_gt age 0 && JS.num_lt age 150.

Definition isValidName (name : jsval) : bool :=
  match name with
  | JStr s =>
      (0 <? String.length (JS.trim s))%nat && (String.length s <=? 100)%nat
  | _ => false
  end.

(** The properties of a request body that the handlers read. *)
Record fields : Type := Fields {
  f_name : jsval;
  f_email : jsval;
  f_age : jsval
}.

Inductive validation : Type :=
| Valid
| Invalid (error : string).

Definition validateUser (user : fields) (isUpdate : bool)
  : completion validation :=
  if negb isUpdate && negb (JS.truthy (f_name user)) then
    Normal (Invalid "Name is required")
  else if negb isUpdate && negb (JS.truthy (f_email user)) then
    Normal (Invalid "Email is required")
  else if negb isUpdate && negb (JS.truthy (f_age user)) then
    Normal (Invalid "Age is required")
  else if JS.defined (f_name user) && negb (isValidName (f_name user)) then
    Normal (Invalid "Name must be a non-empty string (max 100 chars)")
  else
    match (if JS.defined (f_email user)
           then isValidEmail (f_email user) else Normal true) with
    | Throw e => Throw e
    | Normal false => Normal (Invalid "Invalid email format")
    | Normal true =>
        if JS.defined (f_age user) && negb (isValidAge (f_age user)) then
          Normal (Invalid "Age must be a number between 1 and 149")
        else Normal Valid
    end.

(** ** The User collection (schema at lines 34-75) *)
Module User.

(** A document of the collection. Timestamps are clock readings. *)
Record doc : Type := Doc {
  id : string;
  name : string;
  email : string;
  age : Z;
  createdAt : Z;
  updatedAt : Z
}.

Definition set_name (d : doc) (v : string) : doc :=
  Doc (id d) v (email d) (age d) (createdAt d) (updatedAt d).
Definition set_email (d : doc) (v : string) : doc :=
  Doc (id d) (name d) v (age d) (createdAt d) (updatedAt d).
Definition set_age (d : doc) (v : Z) : doc :=
  Doc (id d) (name d) (email d) v (createdAt d) (updatedAt d).
Definition set_updatedAt (d : doc) (v : Z) : doc :=
  Doc (id d) (name d) (email d) (age d) (createdAt d) v.

(** The two query filters the handlers use: [{ id }] and [{ email }]. *)
Inductive filter : Type :=
| ById (v : string)
| ByEmail (v : string).

Definition matches (f : filter) (d : doc) : bool :=
  match f with
  | ById v => String.eqb (id d) v
  | ByEmail v => String.eqb (email d) v
  end.

(** First document matching the filter, with its position. *)
Fixpoint lookup_from (f : filter) (n : nat) (c : list doc)
  : option (nat * doc) :=
  match c with
  | [] => None
  | d :: c' => if matches f d then Some (n, d) else lookup_from f (S n) c'
  end.

Definition lookup (f : filter) (c : list doc) : option (nat * doc) :=
  lookup_from f 0 c.

(** Does a document other than the one at position [i] match? *)
Fixpoint other_matches (f : filter) (i : nat) (n : nat) (c : list doc)
  : bool :=
  match c with
  | [] => false
  | d :: c' =>
      (negb (Nat.eqb n i) && matches f d) || other_matches f i (S n) c'
  end.

End User.

(** ** Response envelope *)

Inductive payload : Type :=
| NoData
| One (d : User.doc)
| Many (l : list User.doc).

Record response : Type := Response {
  status : nat;
  success : bool;
  message : option string;
  error : option string;
  data : payload;
  count : option nat
}.

(** [res.status(code).json({ success: false, error, status })] *)
Definition failure (code : nat) (err : string) : response :=
  Response code false None (Some err) NoData None.

(** [res.status(code).json({ success: true, message, data?, status })] *)
Definition succeeded (code : nat) (msg : string) (d : payload) : response :=
  Response code true (Some msg) None d None.

(** ** The handler monad *)

(** Calls made on the collection, in order. *)
Inductive access : Type :=
| FindOne (f : User.filter)
| Find
| Save
| FindOneAndDelete (f : User.filter).

Record world : Type := World {
  users : list User.doc;
  trace : list access
}.

(** Where control stands after a statement of a handler body. *)
Inductive outcome (A : Type) : Type :=
| Continue (a : A)
| Respond (r : response)
| Raise (e : jserror).
Arguments Continue {A} a.
Arguments Respond {A} r.
Arguments Raise {A} e.

Definition M (A : Type) : Type := world -> outcome A * world.

Definition ret {A} (a : A) : M A := fun w => (Continue a, w).

(** [return res.status(..).json(..)]: leave the handler. *)
Definition respond {A} (r : response) : M A := fun w => (Respond r, w).

Definition bind {A B} (m : M A) (k : A -> M B) : M B :=
  fun w =>
    match m w with
    | (Continue a, w') => k a w'
    | (Respond r, w') => (Respond r, w')
    | (Raise e, w') => (Raise e, w')
    end.

Notation "x <- m ;; k" := (bind m (fun x => k))
  (at level 100, m at next level, right associativity).
Notation "m ;; k" := (bind m (fun _ => k))
  (at level 100, right associativity).

(** Evaluation of an expression that may throw. *)
Definition eval {A} (c : completion A) : M A :=
  fun w =>
    match c with
    | Normal a => (Continue a, w)
    | Throw e => (Raise e, w)
    end.

Definition when (b : bool) (m : M unit) : M unit :=
  if b then m else ret tt.

Definition is_Some_b {A} (o : option A) : bool :=
  match o with Some _ => true | None => false end.

Definition logged (a : access) (w : world) : world :=
  World (users w) (trace w ++ [a]).

Module Model.

(** [await User.findOne(filter)] *)
Definition findOne (f : User.filter) : M (option (nat * User.doc)) :=
  fun w => (Continue (User.lookup f (users w)), logged (FindOne f) w).

(** [await User.find()] *)
Definition find : M (list User.doc) :=
  fun w => (Continue (users w), logged Find w).

(** [await User.findOneAndDelete(filter)] *)
Definition findOneAndDelete (f : User.filter) : M (option User.doc) :=
  fun w =>
    match User.lookup f (users w) with
    | Some (i, d) =>
        (Continue (Some d),
         World (delete i (users w)) (trace w ++ [FindOneAndDelete f]))
    | None => (Continue None, logged (FindOneAndDelete f) w)
    end.

(** [await newUser.save()] for a new document: the unique indexes on
    [id] and [email] (schema lines 39 and 52) reject a duplicate key. *)
Definition save_new (d : User.doc) : M unit :=
  fun w =>
    if existsb (fun x => User.matches (User.ById (User.id d)) x
                         || User.matches (User.ByEmail (User.email d)) x)
               (users w)
    then (Raise DuplicateKey, logged Save w)
    else (Continue tt, World (users w ++ [d]) (trace w ++ [Save])).

(** [await user.save()] for the document loaded from position [i]:
    the modified paths are written back; the unique index on [email]
    rejects a changed email that another document holds. *)
Definition save (i : nat) (d : User.doc) : M unit :=
  fun w =>
    match users w !! i with
    | None => (Raise DocumentNotFound, logged Save w)
    | Some old =>
        if negb (String.eqb (User.email d) (User.email old))
           && User.other_matches (User.ByEmail (User.email d)) i 0 (users w)
        then (Raise DuplicateKey, logged Save w)
        else (Continue tt, World (<[i := d]> (users w)) (trace w ++ [Save]))
    end.

(** Cast of a value assigned to the [age] path (type Number). Past
    [validateUser] the value is an integer from 1 to 149. *)
Definition cast_age (v : jsval) : completion Z :=
  match v with
  | JNum (NInt z) => Normal z
  | _ => Throw CastError
  end.

End Model.

(** ** Request handlers (lines 118-417) *)

Definition hex_digit_i (c : ascii) : bool :=
  let n := JS.code c in
  (((48 <=? n) && (n <=? 57)) || ((97 <=? n) && (n <=? 102))
   || ((65 <=? n) && (n <=? 70)))%N.

(** [/^[0-9a-f]{8}-[0-9a-f]{4}-[0-9a-f]{4}-[0-9a-f]{4}-[0-9a-f]{12}$/i];
    under the [i] flag the class [[0-9a-f]] also holds [A] to [F]. *)
Definition uuidRegex : RegExp.regexp :=
  [ (hex_digit_i, RegExp.Exactly 8); RegExp.lit "-";
    (hex_digit_i, RegExp.Exactly 4); RegExp.lit "-";
    (hex_digit_i, RegExp.Exactly 4); RegExp.lit "-";
    (hex_digit_i, RegExp.Exactly 4); RegExp.lit "-";
    (hex_digit_i, RegExp.Exactly 12) ].

Definition internal_error : response := failure 500 "Internal server error".

(** [try { body } catch (error) { res.status(500).json(..) }] *)
Definition try_catch (body : M response) (w : world) : response * world :=
  match body w with
  | (Continue r, w') => (r, w')
  | (Respond r, w') => (r, w')
  | (Raise _, w') => (internal_error, w')
  end.

Definition reject_invalid (v : validation) : M unit :=
  match v with
  | Invalid e => respond (failure 400 e)
  | Valid => ret tt
  end.

Definition check_id (id : string) : M unit :=
  ok <- eval (RegExp.test uuidRegex (JStr id)) ;;
  when (negb ok) (respond (failure 400 "Invalid user ID format")).

(** POST /users; [uuid] is the value of [uuidv4()] and [now] the clock. *)
Definition create_body (body : fields) (uuid : string) (now : Z) : M response :=
  let name := f_name body in
  let email := f_email body in
  let age := f_age body in
  validation <- eval (validateUser (Fields name email age) false) ;;
  reject_invalid validation ;;
  lowered <- eval (JS.call_string_method JS.toLowerCase email) ;;
  existingUser <- Model.findOne (User.ByEmail lowered) ;;
  when (is_Some_b existingUser)
       (respond (failure 400 "Email already exists")) ;;
  let userId := uuid in
  trimmed <- eval (JS.call_string_method JS.trim name) ;;
  lowered' <- eval (JS.call_string_method JS.toLowerCase email) ;;
  age' <- eval (Model.cast_age age) ;;
  let newUser := User.Doc userId trimmed lowered' age' now now in
  Model.save_new newUser ;;
  ret (succeeded 201 "User created successfully" (One newUser)).

(** GET /users *)
Definition list_body : M response :=
  allUsers <- Model.find ;;
  ret (Response 200 true (Some "Users retrieved successfully") None
                (Many allUsers) (Some (length allUsers))).

(** GET /users/:id *)
Definition get_body (id : string) : M response :=
  check_id id ;;
  user <- Model.findOne (User.ById id) ;;
  match user with
  | None => respond (failure 404 "User not found")
  | Some (_, user) =>
      ret (succeeded 200 "User retrieved successfully" (One user))
  end.

(** PUT /users/:id *)
Definition put_body (id : string) (body : fields) (now : Z) : M response :=
  let name := f_name body in
  let email := f_email body in
  let age := f_age body in
  check_id id ;;
  found <- Model.findOne (User.ById id) ;;
  match found with
  | None => respond (failure 404 "User not found")
  | Some (i, user) =>
      validation <- eval (validateUser (Fields name email age) true) ;;
      reject_invalid validation ;;
      when (JS.truthy email)
           (lowered <- eval (JS.call_string_method JS.toLowerCase email) ;;
            when (negb (String.eqb lowered (User.email user)))
                 (existingUser <- Model.findOne (User.ByEmail lowered) ;;
                  when (is_Some_b existingUser)
                       (respond (failure 400 "Email already exists")))) ;;
      user <- (if JS.truthy name
               then trimmed <- eval (JS.call_string_method JS.trim name) ;;
                    ret (User.set_name user trimmed)
               else ret user) ;;
      user <- (if JS.truthy email
               then lowered <- eval (JS.call_string_method JS.toLowerCase email) ;;
                    ret (User.set_email user lowered)
               else ret user) ;;
      user <- (if JS.truthy age
               then age' <- eval (Model.cast_age age) ;;
                    ret (User.set_age user age')
               else ret user) ;;
      let user := User.set_updatedAt user now in
      Model.save i user ;;
      ret (succeeded 200 "User updated successfully" (One user))
  end.

(** PATCH /users/:id *)
Definition patch_body (id : string) (updates : fields) (now : Z) : M response :=
  check_id id ;;
  found <- Model.findOne (User.ById id) ;;
  match found with
  | None => respond (failure 404 "User not found")
  | Some (i, user) =>
      validation <- eval (validateUser updates true) ;;
      reject_invalid validation ;;
      user <- (if JS.defined (f_name updates)
               then trimmed <- eval (JS.call_string_method JS.trim (f_name updates)) ;;
                    ret (User.set_name user trimmed)
               else ret user) ;;
      user <- (if JS.defined (f_email updates)
               then
                 lowered <- eval (JS.call_string_method JS.toLowerCase
                                                        (f_email updates)) ;;
                 when (negb (String.eqb lowered (User.email user)))
                      (existingUser <- Model.findOne (User.ByEmail lowered) ;;
                       when (is_Some_b existingUser)
                            (respond (failure 400 "Email already exists"))) ;;
                 lowered' <- eval (JS.call_string_method JS.toLowerCase
                                                         (f_email updates)) ;;
                 ret (User.set_email user lowered')
               else ret user) ;;
      user <- (if JS.defined (f_age updates)
               then age' <- eval (Model.cast_age (f_age updates)) ;;
                    ret (User.set_age user age')
               else ret user) ;;
      let user := User.set_updatedAt user now in
      Model.save i user ;;
      ret (succeeded 200 "User updated successfully" (One user))
  end.

(** DELETE /users/:id *)
Definition delete_body (id : string) : M response :=
  check_id id ;;
  user <- Model.findOneAndDelete (User.ById id) ;;
  match user with
  | None => respond (failure 404 "User not found")
  | Some _ =>
      ret (Response 200 true (Some "User deleted successfully") None
                    NoData None)
  end.

(** The five operations of the service, as requests. *)
Inductive request : Type :=
| Create (body : fields) (uuid : string) (now : Z)
| ListAll
| GetById (id : string)
| ReplaceById (id : string) (body : fields) (now : Z)
| PatchById (id : string) (body : fields) (now : Z)
| DeleteById (id : string).

Definition handler (rq : request) : M response :=
  match rq with
  | Create body uuid now => create_body body uuid now
  | ListAll => list_body
  | GetById id => get_body id
  | ReplaceById id body now => put_body id body now
  | PatchById id body now => patch_body id body now
  | DeleteById id => delete_body id
  end.

(** One request served to completion against the collection [c]:
    the response, the collection afterwards, and the collection calls. *)
Definition serve (rq : request) (c : list User.doc)
  : response * list User.doc * list access :=
  let '(r, w) := try_catch (handler rq) (World c []) in
  (r, users w, trace w).

Definition response_of (rq : request) (c : list User.doc) : response :=
  fst (fst (serve rq c)).
Definition store_after (rq : request) (c : list User.doc) : list User.doc :=
  snd (fst (serve rq c)).
Definition accesses_of (rq : request) (c : list User.doc) : list access :=
  snd (serve rq c).

(** Requests served one after the other. *)
Fixpoint run (rqs : list request) (c : list User.doc) : list User.doc :=
  match rqs with
  | [] => c
  | rq :: rest => run rest (store_after rq c)
  end.

(** * Definitions used to state the properties *)

(** ** Strings *)

(** Every character of [s] satisfies [p]. *)
Fixpoint all_chars (p : ascii -> bool) (s : string) : bool :=
  match s with
  | EmptyString => true
  | String c s' => p c && all_chars p s'
  end.

(** [n] copies of [c]. *)
Fixpoint repeat_char (c : ascii) (n : nat) : string :=
  match n with
  | O => EmptyString
  | S n' => String c (repeat_char c n')
  end.

(** ** Email patterns *)

(** [local @ domain . tld], each part non-empty and made of characters
    accepted by [ok]. *)
Definition email_shape (ok : ascii -> bool) (s : string) : Prop :=
  exists l d t,
    s = l +:+ "@" +:+ d +:+ "." +:+ t
    /\ l <> "" /\ d <> "" /\ t <> ""
    /\ all_chars ok l = true /\ all_chars ok d = true
    /\ all_chars ok t = true.

(** The pattern in the specification's words: non-whitespace sequence,
    [@], non-whitespace sequence, [.], non-whitespace sequence. *)
Definition spec_email_pattern (s : string) : Prop :=
  email_shape (fun c => negb (JS.is_space c)) s.

(** The pattern with [@] excluded from the three parts as well. *)
Definition strict_email_pattern (s : string) : Prop :=
  email_shape not_space_at s.

(** ** Identifier layout *)

Definition is_hex (c : ascii) : bool :=
  existsb (Ascii.eqb c) (list_ascii_of_string "0123456789abcdefABCDEF").

(** [n] hex digits. *)
Definition hex_group (n : nat) (g : string) : Prop :=
  String.length g = n /\ all_chars is_hex g = true.

(** The layout in the specification's words: eight hex digits, dash,
    four hex, dash, four hex, dash, four hex, dash, twelve hex, letters
    in either case. *)
Definition grouped_hex_layout (s : string) : Prop :=
  exists g1 g2 g3 g4 g5,
    s = g1 +:+ "-" +:+ g2 +:+ "-" +:+ g3 +:+ "-" +:+ g4 +:+ "-" +:+ g5
    /\ hex_group 8 g1 /\ hex_group 4 g2 /\ hex_group 4 g3
    /\ hex_group 4 g4 /\ hex_group 12 g5.

(** ** Requests and responses *)

(** The requests that take an identifier. *)
Inductive takes_id (id : string) : request -> Prop :=
| takes_get : takes_id id (GetById id)
| takes_put b now : takes_id id (ReplaceById id b now)
| takes_patch b now : takes_id id (PatchById id b now)
| takes_delete : takes_id id (DeleteById id).

(** ReplaceById, or PatchById when [patch] is set. *)
Definition update_request (patch : bool) (id : string) (b : fields)
           (now : Z) : request :=
  if patch then PatchById id b now else ReplaceById id b now.

(** The duplicate-email envelope of lines 136-140, 275-279, 349-353. *)
Definition conflict : response := failure 400 "Email already exists".

(** ** Fields that pass validation *)

Definition name_ok (v : jsval) : Prop :=
  exists s, v = JStr s /\ isValidName (JStr s) = true.

Definition age_ok (v : jsval) : Prop :=
  exists z, v = JNum (NInt z) /\ 0 < z < 150.

(** ** Applied updates *)

(** A supplied field is stored in normal form; an absent one is kept. *)
Definition field_applied {A} (norm : jsval -> option A) (supplied : jsval)
           (old new : A) : Prop :=
  match supplied with
  | JUndefined => new = old
  | v => norm v = Some new
  end.

Definition trimmed_name (v : jsval) : option string :=
  match v with JStr s => Some (JS.trim s) | _ => None end.

Definition folded_email (v : jsval) : option string :=
  match v with JStr s => Some (JS.toLowerCase s) | _ => None end.

Definition integer_age (v : jsval) : option Z :=
  match v with JNum (NInt z) => Some z | _ => None end.

(** All supplied field changes and the refresh of [updatedAt]. *)
Record fully_applied (b : fields) (now : Z) (old new : User.doc) : Prop := {
  keeps_id : User.id new = User.id old;
  keeps_createdAt : User.createdAt new = User.createdAt old;
  refreshes_updatedAt : User.updatedAt new = now;
  applies_name :
    field_applied trimmed_name (f_name b) (User.name old) (User.name new);
  applies_email :
    field_applied folded_email (f_email b) (User.email old) (User.email new);
  applies_age :
    field_applied integer_age (f_age b) (User.age old) (User.age new)
}.

(** ** Invariant of the collection *)

Definition lowercased (d : User.doc) : Prop :=
  JS.toLowerCase (User.email d) = User.email d.

Record store_ok (c : list User.doc) : Prop := StoreOk {
  ids_unique : NoDup (User.id <$> c);
  emails_unique : NoDup (User.email <$> c);
  emails_folded : Forall lowercased c
}.

(** The ways a request can leave the collection. *)
Inductive store_change (c : list User.doc) : list User.doc -> Prop :=
| change_none : store_change c c
| change_insert d :
    User.lookup (User.ById (User.id d)) c = None ->
    User.lookup (User.ByEmail (User.email d)) c = None ->
    lowercased d ->
    store_change c (c ++ [d])
| change_update i old new :
    c !! i = Some old ->
    User.id new = User.id old ->
    User.email new = User.email old
    \/ (User.lookup (User.ByEmail (User.email new)) c = None
        /\ lowercased new) ->
    store_change c (<[i := new]> c)
| change_delete i : store_change c (delete i c).

(** ** Normal forms of the handlers

    What the handlers compute, case by case and without the monad; the
    handlers are proved equal to them below ([serve_create], [serve_put],
    [serve_patch]), and the properties are read off the normal forms. *)

(** The document after the assignments of lines 284-287 (and 344-359),
    for fields that passed validation. *)
Definition merged (user : User.doc) (b : fields) (now : Z) : User.doc :=
  let user := match f_name b with
              | JStr s => User.set_name user (JS.trim s)
              | _ => user
              end in
  let user := match f_email b with
              | JStr e => User.set_email user (JS.toLowerCase e)
              | _ => user
              end in
  let user := match f_age b with
              | JNum (NInt z) => User.set_age user z
              | _ => user
              end in
  User.set_updatedAt user now.

Definition update_normal_form (id : string) (b : fields) (now : Z)
           (c : list User.doc) : response * list User.doc * list access :=
  if negb (RegExp.exec uuidRegex id) then
    (failure 400 "Invalid user ID format", c, [])
  else
    match User.lookup (User.ById id) c with
    | None => (failure 404 "User not found", c, [FindOne (User.ById id)])
    | Some (i, user) =>
        let commit (tr : list access) :=
          (succeeded 200 "User updated successfully" (One (merged user b now)),
           <[i := merged user b now]> c, FindOne (User.ById id) :: tr) in
        match validateUser b true with
        | Throw _ => (internal_error, c, [FindOne (User.ById id)])
        | Normal (Invalid e) => (failure 400 e, c, [FindOne (User.ById id)])
        | Normal Valid =>
            match f_email b with
            | JUndefined => commit [Save]
            | JStr e =>
                let lowered := JS.toLowerCase e in
                if String.eqb lowered (User.email user) then commit [Save]
                else
                  match User.lookup (User.ByEmail lowered) c with
                  | Some _ =>
                      (conflict, c,
                       [FindOne (User.ById id);
                        FindOne (User.ByEmail lowered)])
                  | None => commit [FindOne (User.ByEmail lowered); Save]
                  end
            | _ => (internal_error, c, [FindOne (User.ById id)])
            end
        end
    end.

Definition create_normal_form (b : fields) (uuid : string) (now : Z)
           (c : list User.doc) : response * list User.doc * list access :=
  match validateUser b false with
  | Throw _ => (internal_error, c, [])
  | Normal (Invalid e) => (failure 400 e, c, [])
  | Normal Valid =>
      match f_name b, f_email b, f_age b with
      | JStr n, JStr e, JNum (NInt z) =>
          let lowered := JS.toLowerCase e in
          let newUser := User.Doc uuid (JS.trim n) lowered z now now in
          match User.lookup (User.ByEmail lowered) c with
          | Some _ => (conflict, c, [FindOne (User.ByEmail lowered)])
          | None =>
              if is_Some_b (User.lookup (User.ById uuid) c) then
                (internal_error, c, [FindOne (User.ByEmail lowered); Save])
              else
                (succeeded 201 "User created successfully" (One newUser),
                 c ++ [newUser], [FindOne (User.ByEmail lowered); Save])
          end
      | _, _, _ => (internal_error, c, [])
      end
  end.

(** ** Sample data *)

Definition john : fields :=
  Fields (JStr "John Doe") (JStr "John@Example.com") (JNum (NInt 25)).

Definition shouting_john : fields :=
  Fields (JStr "J. D.") (JStr "JOHN@EXAMPLE.COM") (JNum (NInt 52)).

Definition id_1 : string := "550e8400-e29b-41d4-a716-446655440000".

Definition id_2 : string := "550e8400-e29b-41d4-a716-446655440001".

Definition john_doc : User.doc :=
  User.Doc id_1 "John Doe" "john@example.com" 25 1000 1000.

Definition mary_doc : User.doc :=
  User.Doc id_2 "Mary Major" "mary@example.com" 31 1500 1500.

(** ** Further notions *)

(** Occurrences of [a] in [s]. *)
Fixpoint count_char (a : ascii) (s : string) : nat :=
  match s with
  | EmptyString => O
  | String c s' => (if Ascii.eqb c a then 1 else 0) + count_char a s'
  end.

(** A string that does not begin with white space. *)
Definition starts_clean (s : string) : Prop :=
  match s with
  | EmptyString => True
  | String c _ => JS.is_space c = false
  end.

(** The field constraints of the schema (lines 42-62) on a document:
    a trimmed name of 1 to 100 characters, a lower-case email the
    validator accepts, an age from 1 to 149. *)
Record doc_in_range (d : User.doc) : Prop := DocInRange {
  name_trimmed : JS.trim (User.name d) = User.name d;
  name_length : (0 < String.length (User.name d) <= 100)%nat;
  email_valid : isValidEmail (JStr (User.email d)) = Normal true;
  email_folded : JS.toLowerCase (User.email d) = User.email d;
  age_range : 0 < User.age d < 150
}.

(** The change in the number of documents a response announces: one
    more for a 201 of Create, one less for a 200 of DeleteById. *)
Definition count_after (rq : request) (r : response) (n : nat) : nat :=
  match rq with
  | Create _ _ _ => if Nat.eqb (status r) 201 then S n else n
  | DeleteById _ => if Nat.eqb (status r) 200 then pred n else n
  | _ => n
  end.

(** The shape of an envelope: a success carries a message and status 200
    or 201; a failure carries an error, no data, and status 400, 404 or
    500. *)
Definition well_formed_envelope (r : response) : Prop :=
  if success r then
    (status r = 200%nat \/ status r = 201%nat)
    /\ (exists m, message r = Some m) /\ error r = None
  else
    (status r = 400%nat \/ status r = 404%nat \/ status r = 500%nat)
    /\ message r = None /\ (exists e, error r = Some e)
    /\ data r = NoData /\ count r = None.

(** * Properties *)

(** ** Characters and strings *)

Ltac by_ascii_cases c :=
  destruct c as [[] [] [] [] [] [] [] []]; vm_compute; try reflexivity;
  try discriminate; auto.

Lemma lower_char_idem (c : ascii) :
  JS.lower_char (JS.lower_char c) = JS.lower_char c.
Proof. by_ascii_cases c. Qed.

Lemma toLowerCase_idem (s : string) :
  JS.toLowerCase (JS.toLowerCase s) = JS.toLowerCase s.
Proof.
  induction s as [|c s IH]; simpl; [reflexivity|].
  now rewrite lower_char_idem, IH.
Qed.

Lemma not_space_at_lower (c : ascii) :
  not_space_at (JS.lower_char c) = not_space_at c.
Proof. by_ascii_cases c. Qed.

Lemma is_at_lower (c : ascii) :
  Ascii.eqb "@" (JS.lower_char c) = Ascii.eqb "@" c.
Proof. by_ascii_cases c. Qed.

Lemma is_dot_lower (c : ascii) :
  Ascii.eqb "." (JS.lower_char c) = Ascii.eqb "." c.
Proof. by_ascii_cases c. Qed.

Lemma append_String (c : ascii) (a b : string) :
  String c a +:+ b = String c (a +:+ b).
Proof. reflexivity. Qed.

Lemma append_empty_r (s : string) : s +:+ "" = s.
Proof.
  induction s as [|c s IH]; [reflexivity|].
  now rewrite append_String, IH.
Qed.

(** ** The matcher against its reading as a language *)

Lemma exactly_spec p n k s :
  RegExp.exactly p n k s = true <->
  exists a b, s = a +:+ b /\ String.length a = n
              /\ all_chars p a = true /\ k b = true.
Proof.
  revert s; induction n as [|n IH]; intros s; simpl.
  - split.
    + intros H. exists "", s. auto.
    + intros (a & b & -> & Hl & _ & Hk). destruct a; [apply Hk|discriminate].
  - destruct s as [|c s].
    + split; [discriminate|].
      intros (a & b & Hs & Hl & _). destruct a; discriminate.
    + rewrite andb_true_iff, IH. split.
      * intros (Hc & a & b & -> & Hl & Ha & Hk).
        exists (String c a), b. rewrite append_String. simpl.
        rewrite Hc, Ha, Hl. auto.
      * intros (a & b & Hs & Hl & Ha & Hk).
        destruct a as [|c' a]; [discriminate|].
        rewrite append_String in Hs. simpl in Hl, Ha.
        injection Hs as -> ->. injection Hl as Hl.
        apply andb_true_iff in Ha as [Hc Ha].
        split; [exact Hc|]. exists a, b. auto.
Qed.

Lemma plus_spec p k s :
  RegExp.plus p k s = true <->
  exists a b, s = a +:+ b /\ a <> ""
              /\ all_chars p a = true /\ k b = true.
Proof.
  induction s as [|c s IH]; simpl.
  - split; [discriminate|].
    intros (a & b & Hs & Ha & _). destruct a; [congruence|discriminate].
  - rewrite andb_true_iff, orb_true_iff, IH. split.
    + intros (Hc & [(a & b & -> & Hne & Ha & Hk) | Hk]).
      * exists (String c a), b. rewrite append_String. simpl.
        rewrite Hc, Ha. auto.
      * exists (String c ""), s. simpl. rewrite Hc. auto.
    + intros (a & b & Hs & Hne & Ha & Hk).
      destruct a as [|c' a]; [congruence|].
      rewrite append_String in Hs. simpl in Ha. injection Hs as -> ->.
      apply andb_true_iff in Ha as [Hc Ha]. split; [exact Hc|].
      destruct a as [|c'' a].
      * right. exact Hk.
      * left. exists (String c'' a), b. auto.
Qed.

Lemma at_end_spec s : RegExp.at_end s = true <-> s = "".
Proof. destruct s; simpl; split; congruence. Qed.

Lemma lit_spec a k s :
  RegExp.exactly (Ascii.eqb a) 1 k s = true <->
  exists b, s = String a b /\ k b = true.
Proof.
  simpl. destruct s as [|c s].
  - split; [discriminate|]. intros (b & H & _); discriminate.
  - rewrite andb_true_iff, Ascii.eqb_eq. split.
    + intros [-> Hk]. eauto.
    + intros (b & H & Hk). injection H as -> ->. auto.
Qed.

(** Matching commutes with a character map that every class ignores. *)
Lemma exec_toLowerCase (r : RegExp.regexp) :
  Forall (fun pc => forall c, fst pc (JS.lower_char c) = fst pc c) r ->
  forall s, RegExp.exec r (JS.toLowerCase s) = RegExp.exec r s.
Proof.
  induction 1 as [|[p q] r Hp _ IH]; intros s.
  - destruct s; reflexivity.
  - simpl in Hp. destruct q as [n|]; simpl.
    + revert s. induction n as [|n IHn]; intros s; simpl; [apply IH|].
      destruct s as [|c s]; simpl; [reflexivity|]. now rewrite Hp, IHn.
    + induction s as [|c s IHs]; simpl; [reflexivity|].
      now rewrite Hp, IHs, IH.
Qed.

Lemma emailRegex_toLowerCase (s : string) :
  RegExp.exec emailRegex (JS.toLowerCase s) = RegExp.exec emailRegex s.
Proof.
  apply exec_toLowerCase. unfold emailRegex, RegExp.lit.
  repeat (apply Forall_cons; split; [cbn [fst]; intros c|]);
    auto using not_space_at_lower, is_at_lower, is_dot_lower.
Qed.

(** ** The email validator *)

Lemma emailRegex_exec_iff (s : string) :
  RegExp.exec emailRegex s = true <-> strict_email_pattern s.
Proof.
  unfold emailRegex, RegExp.lit, strict_email_pattern, email_shape.
  cbn [RegExp.exec]. split.
  - intros H.
    apply plus_spec in H as (l & r1 & -> & Hl & Hal & H).
    apply lit_spec in H as (r2 & -> & H).
    apply plus_spec in H as (d & r3 & -> & Hd & Had & H).
    apply lit_spec in H as (r4 & -> & H).
    apply plus_spec in H as (t & r5 & -> & Ht & Hat & H).
    apply at_end_spec in H as ->.
    exists l, d, t. rewrite append_empty_r. repeat split; auto.
  - intros (l & d & t & -> & Hl & Hd & Ht & Hal & Had & Hat).
    apply plus_spec. exists l, ("@" +:+ d +:+ "." +:+ t).
    repeat split; auto.
    apply lit_spec. exists (d +:+ "." +:+ t). split; [reflexivity|].
    apply plus_spec. exists d, ("." +:+ t). repeat split; auto.
    apply lit_spec. exists t. split; [reflexivity|].
    apply plus_spec. exists t, "". rewrite append_empty_r. repeat split; auto.
Qed.

(** C7, as amended: a string is accepted by [isValidEmail] exactly when
    it is one or more characters that are neither white space nor [@],
    then [@], then one or more such characters, then [.], then one or
    more such characters. *)
Theorem isValidEmail_strict_pattern (s : string) :
  isValidEmail (JStr s) = Normal true <-> strict_email_pattern s.
Proof.
  unfold isValidEmail, RegExp.test. cbn [JS.ToString].
  rewrite <- emailRegex_exec_iff. split.
  - intros H. now injection H.
  - intros ->. reflexivity.
Qed.

(** C7, as stated, fails: ["a@b@c.d"] has the shape the specification
    describes (local part [a], domain [b@c], tld [d]) and is rejected. *)
Lemma isValidEmail_rejects_second_at :
  spec_email_pattern "a@b@c.d" /\ isValidEmail (JStr "a@b@c.d") = Normal false.
Proof.
  split; [|reflexivity].
  exists "a", "b@c", "d". repeat split; discriminate.
Qed.

(** ** The name validator *)

(** What [isValidName] computes on a string: the trimmed name is
    non-empty and the name as received has at most 100 characters. *)
Lemma isValidName_iff (s : string) :
  isValidName (JStr s) = true <->
  (0 < String.length (JS.trim s))%nat /\ (String.length s <= 100)%nat.
Proof.
  unfold isValidName.
  now rewrite andb_true_iff, Nat.ltb_lt, Nat.leb_le.
Qed.

(** C6: a name of 100 letters preceded by one space has trimmed length
    100, and [isValidName] rejects it, its untrimmed length being 101. *)
Theorem isValidName_padded_100_rejected :
  let name := " " +:+ repeat_char "a" 100 in
  String.length (JS.trim name) = 100%nat
  /\ String.length name = 101%nat
  /\ isValidName (JStr name) = false
  /\ validateUser (Fields (JStr name) (JStr "a@b.c") (JNum (NInt 30))) false
     = Normal (Invalid "Name must be a non-empty string (max 100 chars)").
Proof. vm_compute. repeat split; reflexivity. Qed.

(** The boundary cases that hold: 100 characters accepted, 101 rejected,
    white space only rejected. *)
Lemma isValidName_boundaries :
  isValidName (JStr (repeat_char "a" 100)) = true
  /\ isValidName (JStr (repeat_char "a" 101)) = false
  /\ isValidName (JStr "   ") = false.
Proof. vm_compute. repeat split; reflexivity. Qed.

(** ** Required fields in creating mode *)

(** C10: in creating mode a supplied but falsy field is reported as
    missing: with [name] the empty string the error is "Name is
    required"; with [age] equal to 0 the error is the missing-field error
    of the first falsy field, "Age is required" when [name] and [email]
    are truthy, and never the range error. *)
Theorem validateUser_falsy_is_missing (u : fields) :
  f_name u = JStr "" \/ f_age u = JNum (NInt 0) ->
  exists field,
    validateUser u false = Normal (Invalid (field +:+ " is required"))
    /\ (f_name u = JStr "" -> field = "Name")
    /\ (JS.truthy (f_name u) = true -> JS.truthy (f_email u) = true ->
        field = "Age").
Proof.
  intros H. unfold validateUser. cbn [negb andb].
  destruct (JS.truthy (f_name u)) eqn:Hn; cbn [negb].
  - destruct (JS.truthy (f_email u)) eqn:He; cbn [negb].
    + destruct H as [H|H]; [rewrite H in Hn; discriminate|].
      rewrite H. cbn. exists "Age". repeat split; auto.
      intros E; rewrite E in Hn; discriminate.
    + exists "Email". repeat split; [|discriminate].
      intros E; rewrite E in Hn; discriminate.
  - exists "Name". repeat split; auto. discriminate.
Qed.

Lemma validateUser_falsy_is_missing_witness :
  exists field,
    validateUser (Fields (JStr "Ann") (JStr "ann@x.org") (JNum (NInt 0))) false
    = Normal (Invalid (field +:+ " is required"))
    /\ field = "Age".
Proof.
  destruct (validateUser_falsy_is_missing
              (Fields (JStr "Ann") (JStr "ann@x.org") (JNum (NInt 0))))
    as (field & Hv & _ & Hage).
  - right. reflexivity.
  - exists field. split; [exact Hv|]. apply Hage; reflexivity.
Defined.

(** ** What a passed validation tells about the fields *)

Lemma valid_name_truthy (s : string) :
  isValidName (JStr s) = true -> JS.truthy (JStr s) = true.
Proof. destruct s; [discriminate|reflexivity]. Qed.

Lemma valid_email_truthy (v : jsval) :
  isValidEmail v = Normal true -> JS.truthy v = true /\ JS.defined v = true.
Proof.
  destruct v as [| |[]|[z|t]|s| |]; try discriminate; try (split; reflexivity).
  - intros H. split; [|reflexivity]. cbn.
    destruct (Z.eqb_spec z 0) as [->|]; [discriminate|reflexivity].
  - intros H. split; [|reflexivity]. destruct s; [discriminate|reflexivity].
Qed.

Lemma valid_age_inv (v : jsval) :
  isValidAge v = true -> exists z, v = JNum (NInt z) /\ 0 < z < 150.
Proof.
  unfold isValidAge.
  destruct v as [| | |[z|]| | |]; cbn; try discriminate.
  rewrite andb_true_iff, Z.ltb_lt, Z.ltb_lt. eauto.
Qed.

Lemma valid_name_inv (v : jsval) :
  isValidName v = true -> exists s, v = JStr s /\ isValidName (JStr s) = true.
Proof. destruct v; try discriminate. eauto. Qed.

Lemma validateUser_update_valid (u : fields) :
  validateUser u true = Normal Valid <->
  (f_name u = JUndefined \/ name_ok (f_name u))
  /\ (f_email u = JUndefined \/ isValidEmail (f_email u) = Normal true)
  /\ (f_age u = JUndefined \/ age_ok (f_age u)).
Proof.
  unfold validateUser, name_ok, age_ok. cbn [negb andb]. split.
  - destruct (JS.defined (f_name u)) eqn:Dn; cbn [andb].
    + destruct (isValidName (f_name u)) eqn:Vn; cbn [negb]; [|discriminate].
      intros H. split; [right; now apply valid_name_inv|]. revert H.
      destruct (JS.defined (f_email u)) eqn:De.
      * destruct (isValidEmail (f_email u)) as [[]|] eqn:Ve; try discriminate.
        intros H. split; [now right|]. revert H.
        destruct (JS.defined (f_age u)) eqn:Da; cbn [andb].
        -- destruct (isValidAge (f_age u)) eqn:Va; [|discriminate].
           intros _. right. now apply valid_age_inv.
        -- intros _. left. destruct (f_age u); try discriminate; reflexivity.
      * intros H. split; [left; destruct (f_email u); try discriminate; reflexivity|].
        revert H. destruct (JS.defined (f_age u)) eqn:Da; cbn [andb].
        -- destruct (isValidAge (f_age u)) eqn:Va; [|discriminate].
           intros _. right. now apply valid_age_inv.
        -- intros _. left. destruct (f_age u); try discriminate; reflexivity.
    + intros H. split; [left; destruct (f_name u); try discriminate; reflexivity|].
      revert H. destruct (JS.defined (f_email u)) eqn:De.
      * destruct (isValidEmail (f_email u)) as [[]|] eqn:Ve; try discriminate.
        intros H. split; [now right|]. revert H.
        destruct (JS.defined (f_age u)) eqn:Da; cbn [andb].
        -- destruct (isValidAge (f_age u)) eqn:Va; [|discriminate].
           intros _. right. now apply valid_age_inv.
        -- intros _. left. destruct (f_age u); try discriminate; reflexivity.
      * intros H. split; [left; destruct (f_email u); try discriminate; reflexivity|].
        revert H. destruct (JS.defined (f_age u)) eqn:Da; cbn [andb].
        -- destruct (isValidAge (f_age u)) eqn:Va; [|discriminate].
           intros _. right. now apply valid_age_inv.
        -- intros _. left. destruct (f_age u); try discriminate; reflexivity.
  - intros (Hn & He & Ha).
    assert (En : JS.defined (f_name u) && negb (isValidName (f_name u)) = false).
    { destruct Hn as [->|(s & -> & Hs)]; [reflexivity|]. now rewrite Hs. }
    assert (Ea : JS.defined (f_age u) && negb (isValidAge (f_age u)) = false).
    { destruct Ha as [->|(z & -> & Hz)]; [reflexivity|].
      unfold isValidAge. cbn.
      destruct (Z.ltb_spec 0 z), (Z.ltb_spec z 150); try lia; reflexivity. }
    rewrite En, Ea.
    destruct He as [->|He]; [reflexivity|]. rewrite He.
    now destruct (JS.defined (f_email u)).
Qed.

Lemma validateUser_create_valid (u : fields) :
  validateUser u false = Normal Valid <->
  name_ok (f_name u) /\ isValidEmail (f_email u) = Normal true
  /\ age_ok (f_age u).
Proof.
  split.
  - intros H.
    assert (T : JS.truthy (f_name u) = true /\ JS.truthy (f_email u) = true
                /\ JS.truthy (f_age u) = true).
    { unfold validateUser in H. cbn [negb andb] in H.
      destruct (JS.truthy (f_name u)); [|discriminate].
      destruct (JS.truthy (f_email u)); [|discriminate].
      destruct (JS.truthy (f_age u)); [|discriminate]. auto. }
    destruct T as (Tn & Te & Ta).
    assert (U : validateUser u true = Normal Valid).
    { unfold validateUser in *. rewrite Tn, Te, Ta in H. exact H. }
    apply validateUser_update_valid in U as (Hn & He & Ha).
    destruct Hn as [E|Hn]; [rewrite E in Tn; discriminate|].
    destruct He as [E|He]; [rewrite E in Te; discriminate|].
    destruct Ha as [E|Ha]; [rewrite E in Ta; discriminate|]. auto.
  - intros (Hn & He & Ha).
    assert (U : validateUser u true = Normal Valid).
    { apply validateUser_update_valid. auto. }
    destruct Hn as (s & En & Hs), Ha as (z & Ea & Hz).
    apply valid_name_truthy in Hs. apply valid_email_truthy in He as [Te _].
    unfold validateUser in *. rewrite En, Ea in *. rewrite Hs, Te.
    cbn [JS.truthy]. destruct (Z.eqb_spec z 0); [lia|]. exact U.
Qed.

(** ** The collection *)

Lemma lookup_from_Some f n c i d :
  User.lookup_from f n c = Some (i, d) ->
  (n <= i)%nat /\ c !! (i - n)%nat = Some d /\ User.matches f d = true.
Proof.
  revert n. induction c as [|x c IH]; intros n; simpl; [discriminate|].
  destruct (User.matches f x) eqn:Hx.
  - intros [= <- <-]. rewrite Nat.sub_diag. auto.
  - intros H. apply IH in H as (Hle & Hl & Hm).
    split; [lia|]. split; [|exact Hm].
    replace (i - n)%nat with (S (i - S n)) by lia. exact Hl.
Qed.

Lemma lookup_Some f c i d :
  User.lookup f c = Some (i, d) ->
  c !! i = Some d /\ User.matches f d = true.
Proof.
  intros H. apply lookup_from_Some in H as (_ & Hl & Hm).
  now rewrite Nat.sub_0_r in Hl.
Qed.

Lemma lookup_from_None f n c :
  User.lookup_from f n c = None <->
  Forall (fun d => User.matches f d = false) c.
Proof.
  revert n. induction c as [|x c IH]; intros n; simpl.
  - split; auto.
  - destruct (User.matches f x) eqn:Hx.
    + split; [discriminate|]. intros H. inversion H; congruence.
    + rewrite IH. split; [now constructor|]. intros H. now inversion H.
Qed.

Lemma lookup_None f c :
  User.lookup f c = None <-> Forall (fun d => User.matches f d = false) c.
Proof. apply lookup_from_None. Qed.

Lemma lookup_from_is_Some f n c d :
  d ∈ c -> User.matches f d = true ->
  exists i d', User.lookup_from f n c = Some (i, d').
Proof.
  intros Hin Hm. destruct (User.lookup_from f n c) as [[i d']|] eqn:E; [eauto|].
  apply lookup_from_None in E. rewrite Forall_forall in E.
  apply E in Hin. congruence.
Qed.

Lemma other_matches_none f i n c :
  Forall (fun d => User.matches f d = false) c ->
  User.other_matches f i n c = false.
Proof.
  intros H. revert n. induction H as [|x c Hx _ IH]; intros n; simpl.
  - reflexivity.
  - now rewrite Hx, andb_false_r, IH.
Qed.

(** With unique ids, the document an id names is the one found. *)
Lemma lookup_by_id_unique c d :
  NoDup (User.id <$> c) -> d ∈ c ->
  exists i, User.lookup (User.ById (User.id d)) c = Some (i, d).
Proof.
  unfold User.lookup. generalize 0%nat.
  induction c as [|x c IH]; intros n Hnd Hin; [now apply elem_of_nil in Hin|].
  rewrite fmap_cons in Hnd. apply NoDup_cons in Hnd as [Hx Hnd]. simpl.
  apply elem_of_cons in Hin as [->|Hin].
  - rewrite String.eqb_refl. eauto.
  - destruct (String.eqb_spec (User.id x) (User.id d)) as [E|_].
    + exfalso. apply Hx. rewrite E. apply list_elem_of_fmap. eauto.
    + now apply IH.
Qed.

(** ** The two update handlers in one normal form *)

Ltac unfold_handler :=
  unfold serve, try_catch, handler, create_body, list_body, get_body,
    put_body, patch_body, delete_body, check_id, reject_invalid,
    bind, eval, when, ret, respond, RegExp.test,
    Model.findOne, Model.find, Model.findOneAndDelete, Model.save,
    Model.save_new, logged;
  cbn [JS.ToString users trace f_name f_email f_age fst snd].

#[local] Arguments RegExp.exec : simpl never.
#[local] Arguments validateUser : simpl never.
#[local] Arguments User.lookup : simpl never.
#[local] Arguments JS.toLowerCase : simpl never.
#[local] Arguments JS.trim : simpl never.
#[local] Arguments String.eqb : simpl never.
#[local] Arguments merged : simpl never.
#[local] Arguments User.matches : simpl never.

Lemma age_ok_truthy a : age_ok a -> JS.truthy a = true.
Proof.
  intros (z & -> & Hz). cbn. destruct (Z.eqb_spec z 0); [lia|reflexivity].
Qed.

Lemma serve_put id b now c :
  serve (ReplaceById id b now) c = update_normal_form id b now c.
Proof.
  unfold update_normal_form. unfold_handler.
  destruct (RegExp.exec uuidRegex id); cbn; [|reflexivity].
  destruct (User.lookup (User.ById id) c) as [[i user]|] eqn:L; cbn; [|reflexivity].
  apply lookup_Some in L as [Li _].
  destruct b as [n e a]. cbn [f_name f_email f_age].
  destruct (validateUser (Fields n e a) true) as [[|err]|] eqn:V; cbn; try reflexivity.
  apply validateUser_update_valid in V as (Hn & He & Ha).
  cbn [f_name f_email f_age] in *.
  assert (Tn : n = JUndefined \/ exists s, n = JStr s /\ JS.truthy n = true).
  { destruct Hn as [->|(s & -> & Hs)]; [now left|right].
    exists s. split; [reflexivity|]. now apply valid_name_truthy. }
  assert (Ta : a = JUndefined \/ exists z, a = JNum (NInt z) /\ JS.truthy a = true).
  { destruct Ha as [->|Ha]; [now left|right].
    pose proof (age_ok_truthy _ Ha) as T. destruct Ha as (z & -> & _). eauto. }
  clear Hn Ha.
  destruct He as [->|He].
  - cbn.
    destruct Tn as [->|(s & -> & ->)], Ta as [->|(z & -> & ->)]; cbn;
      rewrite Li; cbn; rewrite String.eqb_refl; cbn; reflexivity.
  - apply valid_email_truthy in He as [Te _]. rewrite Te.
    destruct e as [| | | |s| |]; cbn; try reflexivity; try discriminate.
    destruct (String.eqb (JS.toLowerCase s) (User.email user)) eqn:E; cbn.
    + apply String.eqb_eq in E.
      destruct Tn as [->|(sn & -> & ->)], Ta as [->|(z & -> & ->)]; cbn;
      rewrite Li; cbn; rewrite E, String.eqb_refl; cbn; unfold merged; cbn; rewrite ?E; reflexivity.
    + destruct (User.lookup (User.ByEmail (JS.toLowerCase s)) c) eqn:L2; cbn.
      * reflexivity.
      * apply lookup_None in L2.
        destruct Tn as [->|(sn & -> & ->)], Ta as [->|(z & -> & ->)]; cbn;
        rewrite Li; cbn; rewrite (other_matches_none _ _ _ _ L2), andb_false_r; cbn; reflexivity.
Qed.

Lemma serve_patch id b now c :
  serve (PatchById id b now) c = update_normal_form id b now c.
Proof.
  unfold update_normal_form. unfold_handler.
  destruct (RegExp.exec uuidRegex id); cbn; [|reflexivity].
  destruct (User.lookup (User.ById id) c) as [[i user]|] eqn:L; cbn; [|reflexivity].
  apply lookup_Some in L as [Li _].
  destruct (validateUser b true) as [[|err]|] eqn:V; cbn; try reflexivity.
  apply validateUser_update_valid in V as (Hn & He & Ha).
  destruct b as [n e a]. cbn [f_name f_email f_age] in *.
  assert (Tn : n = JUndefined \/ exists s, n = JStr s).
  { destruct Hn as [->|(s & -> & Hs)]; eauto. }
  assert (Ta : a = JUndefined \/ exists z, a = JNum (NInt z)).
  { destruct Ha as [->|(z & -> & _)]; eauto. }
  clear Hn Ha.
  destruct He as [->|He].
  - destruct Tn as [->|(s & ->)], Ta as [->|(z & ->)]; cbn;
      rewrite Li; cbn; rewrite String.eqb_refl; cbn; reflexivity.
  - apply valid_email_truthy in He as [_ De].
    destruct e as [| | | |s| |]; try discriminate;
      try (destruct Tn as [->|(sn & ->)]; reflexivity).
    destruct (String.eqb (JS.toLowerCase s) (User.email user)) eqn:E.
    + apply String.eqb_eq in E.
      destruct Tn as [->|(sn & ->)], Ta as [->|(z & ->)]; cbn;
        rewrite ?E, ?String.eqb_refl; cbn;
        rewrite Li; cbn; rewrite ?E, String.eqb_refl; cbn;
        unfold merged; cbn; rewrite ?E; reflexivity.
    + destruct (User.lookup (User.ByEmail (JS.toLowerCase s)) c) eqn:L2.
      * destruct Tn as [->|(sn & ->)]; cbn; rewrite E; cbn; rewrite L2; reflexivity.
      * pose proof L2 as L2'. apply lookup_None in L2'.
        destruct Tn as [->|(sn & ->)], Ta as [->|(z & ->)]; cbn;
          rewrite E; cbn; rewrite L2; cbn;
          rewrite Li; cbn;
          rewrite (other_matches_none _ _ _ _ L2'), andb_false_r; cbn;
          reflexivity.
Qed.

(** ** The create handler in normal form *)

Lemma existsb_matches_or f g c :
  existsb (fun x => User.matches f x || User.matches g x) c
  = is_Some_b (User.lookup f c) || is_Some_b (User.lookup g c).
Proof.
  unfold User.lookup. generalize 0%nat.
  induction c as [|x c IH]; intros n; simpl; [reflexivity|].
  rewrite (IH (S n)).
  destruct (User.matches f x), (User.matches g x); simpl; try reflexivity.
  - now rewrite orb_true_r.
Qed.

Lemma serve_create b uuid now c :
  serve (Create b uuid now) c = create_normal_form b uuid now c.
Proof.
  unfold create_normal_form. unfold_handler.
  destruct b as [n e a]. cbn [f_name f_email f_age].
  destruct (validateUser (Fields n e a) false) as [[|err]|] eqn:V; cbn;
    try reflexivity.
  apply validateUser_create_valid in V as ((sn & Hn & _) & He & (z & Ha & _)).
  cbn [f_name f_email f_age] in *. subst n a.
  destruct e as [| | | |s| |]; cbn; try reflexivity.
  destruct (User.lookup (User.ByEmail (JS.toLowerCase s)) c) eqn:L; cbn;
    [reflexivity|].
  rewrite existsb_matches_or. cbn [User.id User.email]. rewrite L, orb_false_r.
  destruct (User.lookup (User.ById uuid) c); reflexivity.
Qed.

(** ** Identifiers *)

Lemma hex_digit_i_is_hex (c : ascii) : hex_digit_i c = is_hex c.
Proof. by_ascii_cases c. Qed.

Lemma all_chars_ext (p q : ascii -> bool) (s : string) :
  (forall c, p c = q c) -> all_chars p s = all_chars q s.
Proof.
  intros H. induction s as [|c s IH]; simpl; [reflexivity|].
  now rewrite H, IH.
Qed.

Lemma hex_run_spec n k s :
  RegExp.exactly hex_digit_i n k s = true <->
  exists g r, s = g +:+ r /\ hex_group n g /\ k r = true.
Proof.
  rewrite exactly_spec. unfold hex_group.
  split; intros (g & r & -> & H); exists g, r;
    rewrite (all_chars_ext _ _ g hex_digit_i_is_hex) in *; tauto.
Qed.

Lemma uuidRegex_exec_iff (s : string) :
  RegExp.exec uuidRegex s = true <-> grouped_hex_layout s.
Proof.
  unfold uuidRegex, RegExp.lit, grouped_hex_layout.
  cbn [RegExp.exec]. split.
  - intros H.
    apply hex_run_spec in H as (g1 & r & -> & H1 & H).
    apply lit_spec in H as (r' & -> & H).
    apply hex_run_spec in H as (g2 & r & -> & H2 & H).
    apply lit_spec in H as (r'' & -> & H).
    apply hex_run_spec in H as (g3 & r & -> & H3 & H).
    apply lit_spec in H as (r''' & -> & H).
    apply hex_run_spec in H as (g4 & r & -> & H4 & H).
    apply lit_spec in H as (r'''' & -> & H).
    apply hex_run_spec in H as (g5 & r & -> & H5 & H).
    apply at_end_spec in H as ->.
    exists g1, g2, g3, g4, g5. rewrite append_empty_r. auto 10.
  - intros (g1 & g2 & g3 & g4 & g5 & -> & H1 & H2 & H3 & H4 & H5).
    apply hex_run_spec. eexists g1, _. split; [reflexivity|]. split; [exact H1|].
    apply lit_spec. eexists. split; [reflexivity|].
    apply hex_run_spec. eexists g2, _. split; [reflexivity|]. split; [exact H2|].
    apply lit_spec. eexists. split; [reflexivity|].
    apply hex_run_spec. eexists g3, _. split; [reflexivity|]. split; [exact H3|].
    apply lit_spec. eexists. split; [reflexivity|].
    apply hex_run_spec. eexists g4, _. split; [reflexivity|]. split; [exact H4|].
    apply lit_spec. eexists. split; [reflexivity|].
    apply hex_run_spec. exists g5, "". rewrite append_empty_r. auto.
Qed.

(** C5: for an identifier that does not have the grouped hex layout,
    each of GetById, ReplaceById, PatchById and DeleteById answers 400
    "Invalid user ID format", makes no call on the collection, and
    leaves it unchanged. *)
Theorem malformed_id_rejected (id : string) (rq : request)
        (c : list User.doc) :
  ~ grouped_hex_layout id ->
  takes_id id rq ->
  serve rq c = (failure 400 "Invalid user ID format", c, []).
Proof.
  intros Hbad Hrq.
  assert (E : RegExp.exec uuidRegex id = false).
  { destruct (RegExp.exec uuidRegex id) eqn:E; [|reflexivity].
    apply uuidRegex_exec_iff in E. contradiction. }
  destruct Hrq; unfold_handler; rewrite E; reflexivity.
Qed.

Lemma malformed_id_rejected_witness :
  serve (DeleteById "not-a-uuid") []
  = (failure 400 "Invalid user ID format", [], []).
Proof.
  apply (malformed_id_rejected "not-a-uuid"); [|constructor].
  intros H. apply uuidRegex_exec_iff in H. vm_compute in H. discriminate.
Defined.

(** ** Uniqueness of ids and emails *)

Lemma lookup_by_id_None v c :
  User.lookup (User.ById v) c = None -> v ∉ User.id <$> c.
Proof.
  rewrite lookup_None, Forall_forall. intros H Hin.
  apply list_elem_of_fmap in Hin as (d & -> & Hd).
  apply H in Hd. unfold User.matches in Hd.
  now rewrite String.eqb_refl in Hd.
Qed.

Lemma lookup_by_email_None v c :
  User.lookup (User.ByEmail v) c = None -> v ∉ User.email <$> c.
Proof.
  rewrite lookup_None, Forall_forall. intros H Hin.
  apply list_elem_of_fmap in Hin as (d & -> & Hd).
  apply H in Hd. unfold User.matches in Hd.
  now rewrite String.eqb_refl in Hd.
Qed.

Lemma NoDup_snoc_fresh {A} (l : list A) (x : A) :
  NoDup l -> x ∉ l -> NoDup (l ++ [x]).
Proof.
  intros Hl Hx. apply NoDup_app. split; [exact Hl|]. split.
  - intros y Hy Hy'. apply list_elem_of_singleton in Hy'. now subst.
  - apply NoDup_singleton.
Qed.

Lemma NoDup_fmap_insert {A B} (f : A -> B) (l : list A) i x y :
  l !! i = Some x -> NoDup (f <$> l) ->
  f y = f x \/ f y ∉ f <$> l ->
  NoDup (f <$> <[i := y]> l).
Proof.
  revert i. induction l as [|a l IH]; intros i Hi Hnd Hy; [discriminate|].
  rewrite fmap_cons in Hnd. apply NoDup_cons in Hnd as [Ha Hnd].
  destruct i as [|i]; simpl in Hi.
  - injection Hi as ->. csimpl. apply NoDup_cons.
    split; [|exact Hnd]. destruct Hy as [->|Hy]; [exact Ha|].
    rewrite fmap_cons in Hy. intros Hin. apply Hy. now right.
  - csimpl. apply NoDup_cons. split.
    + rewrite list_fmap_insert. intros Hin.
      apply list_elem_of_lookup in Hin as (j & Hj).
      destruct (decide (i = j)) as [<-|Hne].
      * rewrite list_lookup_insert_eq in Hj.
        -- injection Hj as Hj. destruct Hy as [E|Hy].
           ++ apply Ha. rewrite <- Hj, E.
              apply list_elem_of_fmap. exists x. split; [reflexivity|].
              apply list_elem_of_lookup. eauto.
           ++ apply Hy. rewrite fmap_cons, Hj. now left.
        -- rewrite length_fmap. now apply lookup_lt_Some in Hi.
      * rewrite list_lookup_insert_ne in Hj by exact Hne.
        apply Ha. apply list_elem_of_lookup. eauto.
    + apply (IH i); [exact Hi|exact Hnd|].
      destruct Hy as [E|Hy]; [now left|right].
      intros Hin. apply Hy. rewrite fmap_cons. now right.
Qed.

Lemma store_ok_nil : store_ok [].
Proof. split; constructor. Qed.

Lemma store_ok_snoc c d :
  store_ok c ->
  User.lookup (User.ById (User.id d)) c = None ->
  User.lookup (User.ByEmail (User.email d)) c = None ->
  lowercased d ->
  store_ok (c ++ [d]).
Proof.
  intros [Hi He Hf] Li Le Hd. split.
  - rewrite fmap_app. apply NoDup_snoc_fresh; [exact Hi|].
    now apply lookup_by_id_None.
  - rewrite fmap_app. apply NoDup_snoc_fresh; [exact He|].
    now apply lookup_by_email_None.
  - apply Forall_app. split; [exact Hf|]. now constructor.
Qed.

Lemma store_ok_insert c i old new :
  store_ok c -> c !! i = Some old ->
  User.id new = User.id old ->
  User.email new = User.email old
  \/ (User.lookup (User.ByEmail (User.email new)) c = None /\ lowercased new) ->
  store_ok (<[i := new]> c).
Proof.
  intros [Hi He Hf] Hl Hid Hem. split.
  - apply (NoDup_fmap_insert _ _ _ old); auto.
  - apply (NoDup_fmap_insert _ _ _ old); auto.
    destruct Hem as [E|[L _]]; [now left|right].
    now apply lookup_by_email_None.
  - apply Forall_insert; [exact Hf|].
    destruct Hem as [E|[_ L]]; [|exact L].
    unfold lowercased. rewrite E.
    rewrite Forall_forall in Hf. apply Hf.
    apply list_elem_of_lookup. eauto.
Qed.

Lemma store_ok_delete c i : store_ok c -> store_ok (delete i c).
Proof.
  intros [Hi He Hf]. split.
  - rewrite list_fmap_delete. eapply sublist_NoDup; [exact Hi|apply sublist_delete].
  - rewrite list_fmap_delete. eapply sublist_NoDup; [exact He|apply sublist_delete].
  - now apply Forall_delete.
Qed.

Lemma merged_id u b now : User.id (merged u b now) = User.id u.
Proof.
  unfold merged.
  destruct (f_name b) as [| | | | | |], (f_email b) as [| | | | | |],
    (f_age b) as [| | |[]| | |]; reflexivity.
Qed.

Lemma merged_createdAt u b now :
  User.createdAt (merged u b now) = User.createdAt u.
Proof.
  unfold merged.
  destruct (f_name b) as [| | | | | |], (f_email b) as [| | | | | |],
    (f_age b) as [| | |[]| | |]; reflexivity.
Qed.

Lemma merged_updatedAt u b now : User.updatedAt (merged u b now) = now.
Proof. reflexivity. Qed.

Lemma merged_name u b now :
  User.name (merged u b now)
  = match f_name b with JStr s => JS.trim s | _ => User.name u end.
Proof.
  unfold merged.
  destruct (f_name b) as [| | | | | |], (f_email b) as [| | | | | |],
    (f_age b) as [| | |[]| | |]; reflexivity.
Qed.

Lemma merged_email u b now :
  User.email (merged u b now)
  = match f_email b with JStr e => JS.toLowerCase e | _ => User.email u end.
Proof.
  unfold merged.
  destruct (f_name b) as [| | | | | |], (f_email b) as [| | | | | |],
    (f_age b) as [| | |[]| | |]; reflexivity.
Qed.

Lemma merged_age u b now :
  User.age (merged u b now)
  = match f_age b with JNum (NInt z) => z | _ => User.age u end.
Proof.
  unfold merged.
  destruct (f_name b) as [| | | | | |], (f_email b) as [| | | | | |],
    (f_age b) as [| | |[]| | |]; reflexivity.
Qed.

Lemma store_change_ok c c' : store_ok c -> store_change c c' -> store_ok c'.
Proof.
  intros Hc [ | d Li Le Hd | i old new Hl Hid Hem | i ];
    eauto using store_ok_snoc, store_ok_insert, store_ok_delete.
Qed.

Lemma update_normal_form_change id b now c :
  store_change c (snd (fst (update_normal_form id b now c))).
Proof.
  unfold update_normal_form.
  destruct (RegExp.exec uuidRegex id); cbn; [|constructor].
  destruct (User.lookup (User.ById id) c) as [[i user]|] eqn:L; cbn;
    [|constructor].
  apply lookup_Some in L as [Li _].
  destruct (validateUser b true) as [[|err]|]; cbn; try constructor.
  destruct (f_email b) as [| | | |e| |] eqn:E; cbn; try constructor.
  - apply (change_update c i user); [exact Li|apply merged_id|].
    left. now rewrite merged_email, E.
  - destruct (String.eqb (JS.toLowerCase e) (User.email user)) eqn:Q; cbn.
    + apply String.eqb_eq in Q.
      apply (change_update c i user); [exact Li|apply merged_id|].
      left. now rewrite merged_email, E.
    + destruct (User.lookup (User.ByEmail (JS.toLowerCase e)) c) eqn:L2; cbn;
        [constructor|].
      apply (change_update c i user); [exact Li|apply merged_id|].
      right. unfold lowercased. rewrite merged_email, E.
      split; [exact L2|apply toLowerCase_idem].
Qed.

Lemma create_normal_form_change b uuid now c :
  store_change c (snd (fst (create_normal_form b uuid now c))).
Proof.
  unfold create_normal_form.
  destruct (validateUser b false) as [[|err]|]; cbn; try constructor.
  destruct (f_name b) as [| | | |n| |]; cbn; try constructor.
  destruct (f_email b) as [| | | |e| |]; cbn; try constructor.
  destruct (f_age b) as [| | |[z|]| | |]; cbn; try constructor.
  destruct (User.lookup (User.ByEmail (JS.toLowerCase e)) c) eqn:L; cbn;
    [constructor|].
  destruct (User.lookup (User.ById uuid) c) eqn:L'; cbn; [constructor|].
  apply change_insert; cbn; auto. apply toLowerCase_idem.
Qed.

Lemma serve_change rq c : store_change c (store_after rq c).
Proof.
  unfold store_after. destruct rq as [b uuid now| |id|id b now|id b now|id].
  - rewrite serve_create. apply create_normal_form_change.
  - unfold_handler. constructor.
  - unfold_handler. destruct (RegExp.exec uuidRegex id); cbn; [|constructor].
    destruct (User.lookup (User.ById id) c) as [[i user]|]; cbn; constructor.
  - rewrite serve_put. apply update_normal_form_change.
  - rewrite serve_patch. apply update_normal_form_change.
  - unfold_handler. destruct (RegExp.exec uuidRegex id); cbn; [|constructor].
    destruct (User.lookup (User.ById id) c) as [[i user]|]; cbn; constructor.
Qed.

Lemma run_store_ok rqs c : store_ok c -> store_ok (run rqs c).
Proof.
  revert c. induction rqs as [|rq rqs IH]; intros c Hc; simpl; [exact Hc|].
  apply IH. eapply store_change_ok; [exact Hc|apply serve_change].
Qed.

(** C2: starting from the empty collection, after any sequence of
    requests served one after the other no two documents share an id and
    no two share a case-folded email. It holds after every request of
    the sequence, every prefix being such a sequence. *)
Theorem ids_and_emails_unique (rqs : list request) :
  NoDup (User.id <$> run rqs [])
  /\ NoDup ((fun d => JS.toLowerCase (User.email d)) <$> run rqs []).
Proof.
  destruct (run_store_ok rqs [] store_ok_nil) as [Hi He Hf].
  split; [exact Hi|].
  replace ((fun d => JS.toLowerCase (User.email d)) <$> run rqs [])
    with (User.email <$> run rqs []); [exact He|].
  apply Forall_fmap_ext_1. eapply Forall_impl; [exact Hf|].
  intros d Hd. symmetry. exact Hd.
Qed.

(** C3: PatchById and ReplaceById give the same response, the same
    resulting collection and the same collection calls, for every
    identifier, body, clock reading and collection. *)
Theorem patch_equivalent_to_put (id : string) (body : fields) (now : Z)
        (c : list User.doc) :
  serve (PatchById id body now) c = serve (ReplaceById id body now) c.
Proof. now rewrite serve_patch, serve_put. Qed.

(** ** Duplicate emails on create *)

Lemma lookup_by_email_found c d :
  d ∈ c -> exists i d', User.lookup (User.ByEmail (User.email d)) c = Some (i, d').
Proof.
  intros Hin. apply (lookup_from_is_Some _ _ _ d); [exact Hin|].
  unfold User.matches. apply String.eqb_refl.
Qed.

Lemma create_conflict c b uuid now e :
  validateUser b false = Normal Valid ->
  f_email b = JStr e ->
  (exists d, d ∈ c /\ User.email d = JS.toLowerCase e) ->
  serve (Create b uuid now) c
  = (conflict, c, [FindOne (User.ByEmail (JS.toLowerCase e))]).
Proof.
  intros V E (d & Hin & Hd).
  rewrite serve_create. unfold create_normal_form. rewrite V, E.
  apply validateUser_create_valid in V as ((n & -> & _) & _ & (z & -> & _)).
  destruct (lookup_by_email_found c d Hin) as (i & d' & L).
  rewrite Hd in L. now rewrite L.
Qed.

Lemma create_success_stores c b uuid now e :
  f_email b = JStr e ->
  status (response_of (Create b uuid now) c) = 201%nat ->
  exists d, d ∈ store_after (Create b uuid now) c
            /\ User.email d = JS.toLowerCase e.
Proof.
  unfold response_of, store_after. rewrite serve_create.
  unfold create_normal_form. intros ->.
  destruct (validateUser b false) as [[|err]|]; cbn; try discriminate.
  destruct (f_name b) as [| | | |n| |]; cbn; try discriminate.
  destruct (f_age b) as [| | |[z|]| | |]; cbn; try discriminate.
  destruct (User.lookup (User.ByEmail (JS.toLowerCase e)) c); cbn;
    [discriminate|].
  destruct (User.lookup (User.ById uuid) c); cbn; [discriminate|].
  intros _. eexists. split; [apply elem_of_app; right; now left|reflexivity].
Qed.

(** C1: for a valid input whose case-folded email is the stored email of
    some document, Create answers 400 "Email already exists" and the
    collection is unchanged; in particular, when the collection results
    from a successful Create, a Create whose email equals that one's up
    to letter case is refused this way, whatever its name and age. *)
Theorem create_duplicate_email_conflict
        (c : list User.doc) (b : fields) (uuid : string) (now : Z)
        (e : string) :
  validateUser b false = Normal Valid ->
  f_email b = JStr e ->
  ((exists d, d ∈ c /\ User.email d = JS.toLowerCase e) ->
   serve (Create b uuid now) c
   = (conflict, c, [FindOne (User.ByEmail (JS.toLowerCase e))]))
  /\ (forall c0 b0 uuid0 now0 e0,
        f_email b0 = JStr e0 ->
        status (response_of (Create b0 uuid0 now0) c0) = 201%nat ->
        c = store_after (Create b0 uuid0 now0) c0 ->
        JS.toLowerCase e = JS.toLowerCase e0 ->
        response_of (Create b uuid now) c = conflict
        /\ store_after (Create b uuid now) c = c).
Proof.
  intros V E. split.
  - now apply create_conflict.
  - intros c0 b0 uuid0 now0 e0 E0 S0 -> Q.
    destruct (create_success_stores c0 b0 uuid0 now0 e0 E0 S0) as (d & Hin & Hd).
    set (c1 := store_after (Create b0 uuid0 now0) c0) in *.
    unfold response_of, store_after.
    rewrite (create_conflict c1 b uuid now e V E); [split; reflexivity|].
    exists d. split; [exact Hin|]. now rewrite Q.
Qed.

Lemma create_duplicate_email_conflict_witness :
  response_of (Create shouting_john id_2 2000)
              (store_after (Create john id_1 1000) [])
  = conflict
  /\ store_after (Create shouting_john id_2 2000)
                 (store_after (Create john id_1 1000) [])
     = store_after (Create john id_1 1000) [].
Proof.
  refine (proj2 (create_duplicate_email_conflict
                   (store_after (Create john id_1 1000) [])
                   shouting_john id_2 2000 "JOHN@EXAMPLE.COM" _ _)
                [] john id_1 1000 "John@Example.com" _ _ _ _);
    vm_compute; reflexivity.
Defined.

(** ** Updates apply in full or not at all *)

Lemma serve_update patch id b now c :
  serve (update_request patch id b now) c = update_normal_form id b now c.
Proof. destruct patch; [apply serve_patch|apply serve_put]. Qed.

Lemma merged_fully_applied b now old :
  validateUser b true = Normal Valid ->
  f_email b = JUndefined \/ (exists e, f_email b = JStr e) ->
  fully_applied b now old (merged old b now).
Proof.
  intros V He. apply validateUser_update_valid in V as (Hn & _ & Ha).
  split.
  - apply merged_id.
  - apply merged_createdAt.
  - apply merged_updatedAt.
  - rewrite merged_name.
    destruct Hn as [->|(s & -> & _)]; reflexivity.
  - rewrite merged_email.
    destruct He as [->|(e & ->)]; reflexivity.
  - rewrite merged_age.
    destruct Ha as [->|(z & -> & _)]; reflexivity.
Qed.

Lemma validation_error_not_conflict b mode err :
  validateUser b mode = Normal (Invalid err) ->
  err <> "Email already exists".
Proof.
  unfold validateUser.
  repeat match goal with
         | |- context [if ?x then _ else _] => destruct x
         | |- context [match ?x with Normal _ => _ | Throw _ => _ end] =>
             destruct x as [[]|]
         end;
    intros [= <-] || discriminate; discriminate.
Qed.

(** C4: a ReplaceById or PatchById on an existing record either answers
    200 and persists every supplied field change together with the new
    [updatedAt], the other documents untouched, or answers otherwise and
    leaves the collection as it was; in particular a duplicate-email
    conflict, which PatchById detects after staging the name on the
    loaded document, persists nothing. *)
Theorem update_all_or_nothing (patch : bool) (id : string) (b : fields)
        (now : Z) (c : list User.doc) (i : nat) (old : User.doc) :
  User.lookup (User.ById id) c = Some (i, old) ->
  let rq := update_request patch id b now in
  ((status (response_of rq c) = 200%nat
    /\ exists new, fully_applied b now old new
                   /\ store_after rq c = <[i := new]> c)
   \/ (status (response_of rq c) <> 200%nat /\ store_after rq c = c))
  /\ (response_of rq c = conflict -> store_after rq c = c).
Proof.
  intros L rq. unfold response_of, store_after, rq.
  rewrite serve_update. unfold update_normal_form. rewrite L.
  destruct (RegExp.exec uuidRegex id); cbn;
    [|split; [right; split; [discriminate|reflexivity]|reflexivity]].
  destruct (validateUser b true) as [[|err]|] eqn:V; cbn;
    try (split; [right; split; [discriminate|reflexivity]|reflexivity]).
  destruct (f_email b) as [| | | |e| |] eqn:E; cbn;
    try (split; [right; split; [discriminate|reflexivity]|reflexivity]).
  - split; [left|discriminate]. split; [reflexivity|].
    exists (merged old b now). split; [|reflexivity].
    apply merged_fully_applied; auto.
  - destruct (String.eqb (JS.toLowerCase e) (User.email old)); cbn.
    + split; [left|discriminate]. split; [reflexivity|].
      exists (merged old b now). split; [|reflexivity].
      apply merged_fully_applied; eauto.
    + destruct (User.lookup (User.ByEmail (JS.toLowerCase e)) c); cbn.
      * split; [right; split; [discriminate|reflexivity]|reflexivity].
      * split; [left|discriminate]. split; [reflexivity|].
        exists (merged old b now). split; [|reflexivity].
        apply merged_fully_applied; eauto.
Qed.

(** A patch of John's name and email, the email being Mary's: the name
    is staged, the conflict is found, nothing is persisted. *)
Lemma update_all_or_nothing_witness :
  response_of (PatchById id_1
                 (Fields (JStr "Johnny") (JStr "Mary@Example.com") JUndefined)
                 3000) [john_doc; mary_doc] = conflict
  /\ store_after (PatchById id_1
                    (Fields (JStr "Johnny") (JStr "Mary@Example.com") JUndefined)
                    3000) [john_doc; mary_doc] = [john_doc; mary_doc].
Proof.
  split; [reflexivity|].
  refine (proj2 (update_all_or_nothing true id_1
                   (Fields (JStr "Johnny") (JStr "Mary@Example.com") JUndefined)
                   3000 [john_doc; mary_doc] 0 john_doc _) _);
    reflexivity.
Defined.

(** ** Updates that keep the email *)

Lemma isValidEmail_toLowerCase (e : string) :
  isValidEmail (JStr (JS.toLowerCase e)) = isValidEmail (JStr e).
Proof.
  unfold isValidEmail, RegExp.test. cbn [JS.ToString].
  now rewrite emailRegex_toLowerCase.
Qed.

(** C8: when the email supplied to ReplaceById or PatchById equals,
    once lower-cased, the stored email of the record, no lookup by email
    is made and the response is not the duplicate-email conflict; the
    request succeeds, applying the update, when moreover the identifier
    is well formed, the stored email is a valid one, and the name and
    the age are each absent or valid. *)
Theorem update_same_email_no_conflict (patch : bool) (id : string)
        (b : fields) (now : Z) (c : list User.doc) (i : nat)
        (old : User.doc) (e : string) :
  User.lookup (User.ById id) c = Some (i, old) ->
  f_email b = JStr e ->
  JS.toLowerCase e = User.email old ->
  let rq := update_request patch id b now in
  (forall v, FindOne (User.ByEmail v) ∉ accesses_of rq c)
  /\ response_of rq c <> conflict
  /\ (RegExp.exec uuidRegex id = true ->
      isValidEmail (JStr (User.email old)) = Normal true ->
      f_name b = JUndefined \/ name_ok (f_name b) ->
      f_age b = JUndefined \/ age_ok (f_age b) ->
      status (response_of rq c) = 200%nat
      /\ exists new, fully_applied b now old new
                     /\ store_after rq c = <[i := new]> c).
Proof.
  intros L E Q rq. unfold response_of, store_after, accesses_of, rq.
  rewrite serve_update. unfold update_normal_form. rewrite L.
  destruct (RegExp.exec uuidRegex id); cbn.
  2:{ split; [intros v H; now apply elem_of_nil in H|].
      split; [discriminate|discriminate]. }
  destruct (validateUser b true) as [[|err]|] eqn:V; cbn.
  - rewrite E, Q, String.eqb_refl. cbn. split; [|split; [discriminate|]].
    + intros v H. apply elem_of_cons in H as [H|H]; [discriminate|].
      apply list_elem_of_singleton in H. discriminate.
    + intros _ _ _ _. split; [reflexivity|].
      exists (merged old b now). split; [|reflexivity].
      apply merged_fully_applied; eauto.
  - split; [|split].
    + intros v H. apply list_elem_of_singleton in H. discriminate.
    + intros [= H]. now apply validation_error_not_conflict in V.
    + intros _ Hv Hn Ha. exfalso.
      assert (V' : validateUser b true = Normal Valid).
      { apply validateUser_update_valid. split; [exact Hn|]. split; [|exact Ha].
        right. now rewrite E, <- isValidEmail_toLowerCase, Q. }
      congruence.
  - split; [|split].
    + intros v H. apply list_elem_of_singleton in H. discriminate.
    + discriminate.
    + intros _ Hv Hn Ha. exfalso.
      assert (V' : validateUser b true = Normal Valid).
      { apply validateUser_update_valid. split; [exact Hn|]. split; [|exact Ha].
        right. now rewrite E, <- isValidEmail_toLowerCase, Q. }
      congruence.
Qed.

Lemma update_same_email_no_conflict_witness :
  (forall v, FindOne (User.ByEmail v)
             ∉ accesses_of (ReplaceById id_1 shouting_john 3000)
                           [john_doc; mary_doc])
  /\ response_of (ReplaceById id_1 shouting_john 3000) [john_doc; mary_doc]
     <> conflict
  /\ status (response_of (ReplaceById id_1 shouting_john 3000)
                         [john_doc; mary_doc]) = 200%nat.
Proof.
  pose proof (update_same_email_no_conflict false id_1 shouting_john 3000
                [john_doc; mary_doc] 0 john_doc "JOHN@EXAMPLE.COM"
                eq_refl eq_refl eq_refl) as (H1 & H2 & H3).
  split; [exact H1|]. split; [exact H2|].
  apply H3.
  - reflexivity.
  - reflexivity.
  - right. exists "J. D.". split; reflexivity.
  - right. exists 52. split; [reflexivity|lia].
Defined.

(** ** The empty patch *)

(** C9: for a record [r] of a collection with unique ids, [r]'s id being
    well formed, PatchById with no field succeeds and replaces [r] by a
    document that agrees with it on id, name, email, age and createdAt,
    its updatedAt being the clock reading. *)
Theorem patch_empty_changes_only_updatedAt (c : list User.doc)
        (r : User.doc) (now : Z) :
  r ∈ c ->
  NoDup (User.id <$> c) ->
  grouped_hex_layout (User.id r) ->
  let rq := PatchById (User.id r) (Fields JUndefined JUndefined JUndefined) now in
  status (response_of rq c) = 200%nat
  /\ exists i r',
      c !! i = Some r
      /\ store_after rq c = <[i := r']> c
      /\ User.id r' = User.id r
      /\ User.name r' = User.name r
      /\ User.email r' = User.email r
      /\ User.age r' = User.age r
      /\ User.createdAt r' = User.createdAt r
      /\ User.updatedAt r' = now.
Proof.
  intros Hin Hnd Hid rq. unfold response_of, store_after, rq.
  rewrite serve_patch. unfold update_normal_form.
  apply uuidRegex_exec_iff in Hid. rewrite Hid.
  destruct (lookup_by_id_unique c r) as (i & L); [exact Hnd|exact Hin|].
  rewrite L. cbn. split; [reflexivity|].
  apply lookup_Some in L as [Li _].
  exists i, (merged r (Fields JUndefined JUndefined JUndefined) now).
  repeat split; auto.
Qed.

Lemma patch_empty_changes_only_updatedAt_witness :
  status (response_of (PatchById id_1 (Fields JUndefined JUndefined JUndefined)
                                 3000)
                      [john_doc; mary_doc]) = 200%nat
  /\ store_after (PatchById id_1 (Fields JUndefined JUndefined JUndefined) 3000)
                 [john_doc; mary_doc]
     = [User.Doc id_1 "John Doe" "john@example.com" 25 1000 3000; mary_doc].
Proof.
  assert (H1 : john_doc ∈ [john_doc; mary_doc]) by (now left).
  assert (H2 : NoDup (User.id <$> [john_doc; mary_doc])).
  { apply NoDup_cons. split; [|apply NoDup_singleton].
    intros H. apply list_elem_of_singleton in H. vm_compute in H. discriminate. }
  assert (H3 : grouped_hex_layout (User.id john_doc)).
  { apply uuidRegex_exec_iff. reflexivity. }
  destruct (patch_empty_changes_only_updatedAt [john_doc; mary_doc] john_doc
              3000 H1 H2 H3) as (Hs & _).
  split; [exact Hs|reflexivity].
Defined.

(** ** The scenario of the specification

    Create John with a mixed-case email: the stored email is lower-cased.
    A second Create with the email in capitals is a conflict. After the
    record is deleted, GetById and a second DeleteById answer 404. *)
Example scenario_john :
  let c1 := store_after (Create john id_1 1000) [] in
  let c2 := store_after (DeleteById id_1) c1 in
  status (response_of (Create john id_1 1000) []) = 201%nat
  /\ User.email <$> c1 = ["john@example.com"]
  /\ response_of (Create shouting_john id_2 2000) c1 = conflict
  /\ status (response_of (DeleteById id_1) c1) = 200%nat
  /\ c2 = []
  /\ response_of (GetById id_1) c2 = failure 404 "User not found"
  /\ response_of (DeleteById id_1) c2 = failure 404 "User not found".
Proof. vm_compute. repeat split; reflexivity. Qed.

(** * Further properties *)

(** ** The validators *)

(** X1: [isValidAge] accepts exactly the integer-valued numbers from 1
    to 149; 0, 150, fractions and non-numbers are rejected. *)
Theorem isValidAge_integer_range (v : jsval) :
  isValidAge v = true <-> exists z, v = JNum (NInt z) /\ 1 <= z <= 149.
Proof.
  split.
  - intros H. apply valid_age_inv in H as (z & -> & Hz). exists z. split; [reflexivity|lia].
  - intros (z & -> & Hz). unfold isValidAge. cbn.
    destruct (Z.ltb_spec 0 z), (Z.ltb_spec z 150); try lia; reflexivity.
Qed.

Lemma all_chars_app p a b :
  all_chars p (a +:+ b) = all_chars p a && all_chars p b.
Proof.
  induction a as [|c a IH]; [reflexivity|].
  rewrite append_String. simpl. now rewrite IH, andb_assoc.
Qed.

Lemma count_char_app x a b :
  count_char x (a +:+ b) = (count_char x a + count_char x b)%nat.
Proof.
  induction a as [|c a IH]; [reflexivity|].
  rewrite append_String. simpl. rewrite IH. lia.
Qed.

Lemma count_char_absent x p s :
  p x = false -> all_chars p s = true -> count_char x s = 0%nat.
Proof.
  intros Hx. induction s as [|c s IH]; simpl; [reflexivity|].
  rewrite andb_true_iff. intros [Hc Hs].
  destruct (Ascii.eqb_spec c x) as [->|_]; [congruence|]. now apply IH.
Qed.

Lemma not_space_at_no_space s :
  all_chars not_space_at s = true ->
  all_chars (fun c => negb (JS.is_space c)) s = true.
Proof.
  induction s as [|c s IH]; simpl; [reflexivity|].
  unfold not_space_at at 1. rewrite !andb_true_iff. intros [[H _] Hs]. auto.
Qed.

(** X2: an email string that [isValidEmail] accepts holds no white space
    and exactly one [@]. *)
Theorem isValidEmail_no_space_one_at (s : string) :
  isValidEmail (JStr s) = Normal true ->
  all_chars (fun c => negb (JS.is_space c)) s = true
  /\ count_char "@" s = 1%nat.
Proof.
  intros H.
  assert (E : RegExp.exec emailRegex s = true).
  { unfold isValidEmail, RegExp.test in H. cbn [JS.ToString] in H. congruence. }
  apply emailRegex_exec_iff in E as (l & d & t & -> & _ & _ & _ & Hl & Hd & Ht).
  split.
  - rewrite !all_chars_app.
    rewrite (not_space_at_no_space l Hl), (not_space_at_no_space d Hd),
      (not_space_at_no_space t Ht). reflexivity.
  - rewrite !count_char_app.
    rewrite (count_char_absent "@" not_space_at l eq_refl Hl),
      (count_char_absent "@" not_space_at d eq_refl Hd),
      (count_char_absent "@" not_space_at t eq_refl Ht). reflexivity.
Qed.

Lemma isValidEmail_no_space_one_at_witness :
  all_chars (fun c => negb (JS.is_space c)) "ann@x.org" = true
  /\ count_char "@" "ann@x.org" = 1%nat.
Proof. apply isValidEmail_no_space_one_at. reflexivity. Defined.

(** X3: in creating mode [validateUser] answers valid exactly when the
    name is a string of at most 100 characters with a non-empty trim, the
    email passes [isValidEmail], and the age is an integer from 1 to 149. *)
Theorem validateUser_creating_accepts (u : fields) :
  validateUser u false = Normal Valid <->
  (exists s, f_name u = JStr s
             /\ (0 < String.length (JS.trim s))%nat
             /\ (String.length s <= 100)%nat)
  /\ isValidEmail (f_email u) = Normal true
  /\ (exists z, f_age u = JNum (NInt z) /\ 1 <= z <= 149).
Proof.
  rewrite validateUser_create_valid. unfold name_ok, age_ok. split.
  - intros ((s & En & Hs) & He & (z & Ea & Hz)).
    apply isValidName_iff in Hs. repeat split; eauto. exists z. split; [auto|lia].
  - intros ((s & En & Hs) & He & (z & Ea & Hz)).
    split; [|split; [exact He|]].
    + exists s. split; [exact En|]. now apply isValidName_iff.
    + exists z. split; [exact Ea|lia].
Qed.

(** X4: in patching mode every field may be absent: [validateUser]
    answers valid exactly when each of name, email and age is either
    [undefined] or valid; [null], the empty string and 0 are not absent
    and are refused. *)
Theorem validateUser_patching_accepts (u : fields) :
  (validateUser u true = Normal Valid <->
   (f_name u = JUndefined \/ isValidName (f_name u) = true)
   /\ (f_email u = JUndefined \/ isValidEmail (f_email u) = Normal true)
   /\ (f_age u = JUndefined \/ isValidAge (f_age u) = true))
  /\ isValidName JNull = false /\ isValidName (JStr "") = false
  /\ isValidEmail JNull = Normal false /\ isValidEmail (JStr "") = Normal false
  /\ isValidAge JNull = false /\ isValidAge (JNum (NInt 0)) = false.
Proof.
  split; [|repeat split; reflexivity].
  rewrite validateUser_update_valid. unfold name_ok, age_ok. split.
  - intros (Hn & He & Ha). split; [|split; [exact He|]].
    + destruct Hn as [Hn|(s & -> & Hs)]; auto.
    + destruct Ha as [Ha|(z & -> & Hz)]; [auto|right].
      unfold isValidAge. cbn.
      destruct (Z.ltb_spec 0 z), (Z.ltb_spec z 150); try lia; reflexivity.
  - intros (Hn & He & Ha). split; [|split; [exact He|]].
    + destruct Hn as [Hn|Hn]; [auto|right]. now apply valid_name_inv.
    + destruct Ha as [Ha|Ha]; [auto|right]. now apply valid_age_inv.
Qed.


(** ** Lookups in a changed collection *)

Lemma lookup_from_app_None f n c d :
  User.lookup_from f n c = None -> User.matches f d = true ->
  User.lookup_from f n (c ++ [d]) = Some ((n + length c)%nat, d).
Proof.
  revert n. induction c as [|x c IH]; intros n; simpl.
  - intros _ ->. now rewrite Nat.add_0_r.
  - destruct (User.matches f x); [discriminate|].
    intros H Hd. rewrite (IH (S n) H Hd). do 2 f_equal. lia.
Qed.



Lemma lookup_from_delete_unique v n c i d :
  NoDup (User.id <$> c) ->
  User.lookup_from (User.ById v) n c = Some (i, d) ->
  User.lookup_from (User.ById v) n (delete (i - n)%nat c) = None.
Proof.
  revert n. induction c as [|x c IH]; intros n Hnd; simpl; [discriminate|].
  rewrite fmap_cons in Hnd. apply NoDup_cons in Hnd as [Hx Hnd].
  destruct (User.matches (User.ById v) x) eqn:Mx.
  - intros [= <- <-]. rewrite Nat.sub_diag. simpl.
    apply lookup_from_None, Forall_forall. intros y Hy.
    destruct (User.matches (User.ById v) y) eqn:My; [|reflexivity].
    exfalso. apply Hx. unfold User.matches in Mx, My.
    apply String.eqb_eq in Mx, My. rewrite Mx, <- My.
    now apply list_elem_of_fmap_2.
  - intros H. pose proof (lookup_from_Some _ _ _ _ _ H) as (Hle & _).
    replace (i - n)%nat with (S (i - S n)) by lia. simpl. rewrite Mx.
    now apply IH.
Qed.

Lemma exec_of_layout id :
  grouped_hex_layout id -> RegExp.exec uuidRegex id = true.
Proof. apply uuidRegex_exec_iff. Qed.

(** ** Round trips *)

(** X6: a Create of valid string fields with a free email and a fresh,
    well-formed id answers 201 with the document made of the id, the
    trimmed name, the lower-cased email, the age and the clock reading as
    both timestamps, appends it to the collection, and a GetById of that
    id then returns this document. *)
Theorem create_then_get (b : fields) (uuid : string) (now : Z)
        (c : list User.doc) (n e : string) (z : Z) :
  validateUser b false = Normal Valid ->
  f_name b = JStr n -> f_email b = JStr e -> f_age b = JNum (NInt z) ->
  User.lookup (User.ByEmail (JS.toLowerCase e)) c = None ->
  User.lookup (User.ById uuid) c = None ->
  grouped_hex_layout uuid ->
  let d := User.Doc uuid (JS.trim n) (JS.toLowerCase e) z now now in
  serve (Create b uuid now) c
  = (succeeded 201 "User created successfully" (One d), c ++ [d],
     [FindOne (User.ByEmail (JS.toLowerCase e)); Save])
  /\ serve (GetById uuid) (c ++ [d])
     = (succeeded 200 "User retrieved successfully" (One d), c ++ [d],
        [FindOne (User.ById uuid)]).
Proof.
  intros V En Ee Ea Le Li Hid d. split.
  - rewrite serve_create. unfold create_normal_form.
    now rewrite V, En, Ee, Ea, Le, Li.
  - unfold_handler. rewrite (exec_of_layout uuid Hid). cbn.
    unfold User.lookup in *.
    rewrite (lookup_from_app_None (User.ById uuid) 0 c d Li).
    + reflexivity.
    + unfold User.matches. apply String.eqb_refl.
Qed.

Lemma create_then_get_witness :
  serve (GetById id_2) [john_doc; mary_doc]
  = (succeeded 200 "User retrieved successfully" (One mary_doc),
     [john_doc; mary_doc], [FindOne (User.ById id_2)]).
Proof.
  refine (proj2 (create_then_get
                   (Fields (JStr " Mary Major ") (JStr "Mary@Example.com")
                           (JNum (NInt 31)))
                   id_2 1500 [john_doc] " Mary Major " "Mary@Example.com" 31
                   _ _ _ _ _ _ _));
    try reflexivity.
  apply uuidRegex_exec_iff. reflexivity.
Defined.



(** X8: in a collection with unique ids, after a 200 of DeleteById the
    document is gone: the collection is one shorter, and a GetById or a
    second DeleteById of the same id answers 404 "User not found". *)
Theorem delete_then_not_found (id : string) (c : list User.doc) :
  NoDup (User.id <$> c) ->
  status (response_of (DeleteById id) c) = 200%nat ->
  let c' := store_after (DeleteById id) c in
  S (length c') = length c
  /\ serve (GetById id) c'
     = (failure 404 "User not found", c', [FindOne (User.ById id)])
  /\ serve (DeleteById id) c'
     = (failure 404 "User not found", c', [FindOneAndDelete (User.ById id)]).
Proof.
  intros Hnd. unfold response_of, store_after. unfold_handler.
  destruct (RegExp.exec uuidRegex id) eqn:X; cbn; [|discriminate].
  destruct (User.lookup (User.ById id) c) as [[i d]|] eqn:L; cbn;
    [|discriminate].
  intros _.
  assert (L' : User.lookup (User.ById id) (delete i c) = None).
  { pose proof (lookup_from_delete_unique id 0 c i d Hnd L) as H.
    now rewrite Nat.sub_0_r in H. }
  apply lookup_Some in L as [Li _].
  split; [|split].
  - rewrite length_delete by eauto.
    apply lookup_lt_Some in Li. lia.
  - now rewrite L'.
  - now rewrite L'.
Qed.

Lemma delete_then_not_found_witness :
  serve (GetById id_1) [mary_doc]
  = (failure 404 "User not found", [mary_doc], [FindOne (User.ById id_1)]).
Proof.
  refine (proj1 (proj2 (delete_then_not_found id_1 [john_doc; mary_doc] _ _))).
  - apply NoDup_cons. split; [|apply NoDup_singleton].
    intros H. apply list_elem_of_singleton in H. vm_compute in H. discriminate.
  - reflexivity.
Defined.

(** ** Errors of the update and create handlers *)

(** X9: a valid ReplaceById or PatchById whose email, lower-cased,
    differs from the record's own and is the stored email of a document
    answers 400 "Email already exists" after two lookups, and persists
    nothing. *)
Theorem update_email_taken_conflict (patch : bool) (id : string)
        (b : fields) (now : Z) (c : list User.doc) (i : nat)
        (old : User.doc) (e : string) :
  grouped_hex_layout id ->
  User.lookup (User.ById id) c = Some (i, old) ->
  validateUser b true = Normal Valid ->
  f_email b = JStr e ->
  JS.toLowerCase e <> User.email old ->
  (exists d, d ∈ c /\ User.email d = JS.toLowerCase e) ->
  serve (update_request patch id b now) c
  = (conflict, c,
     [FindOne (User.ById id); FindOne (User.ByEmail (JS.toLowerCase e))]).
Proof.
  intros Hid L V E Hne (d & Hin & Hd).
  rewrite serve_update. unfold update_normal_form.
  rewrite (exec_of_layout id Hid), L, V, E. cbn.
  apply String.eqb_neq in Hne. rewrite Hne.
  destruct (lookup_by_email_found c d Hin) as (j & d' & L').
  rewrite Hd in L'. now rewrite L'.
Qed.

Lemma update_email_taken_conflict_witness :
  serve (ReplaceById id_1 (Fields JUndefined (JStr "MARY@example.com") JUndefined)
                     3000) [john_doc; mary_doc]
  = (conflict, [john_doc; mary_doc],
     [FindOne (User.ById id_1); FindOne (User.ByEmail "mary@example.com")]).
Proof.
  apply (update_email_taken_conflict false id_1
           (Fields JUndefined (JStr "MARY@example.com") JUndefined) 3000
           [john_doc; mary_doc] 0 john_doc "MARY@example.com").
  - apply uuidRegex_exec_iff. reflexivity.
  - reflexivity.
  - reflexivity.
  - reflexivity.
  - vm_compute. discriminate.
  - exists mary_doc. split; [right; left|reflexivity].
Defined.

(** X10: for a well-formed id that no document has, GetById,
    ReplaceById, PatchById and DeleteById answer 404 "User not found" and
    leave the collection unchanged; the update handlers do so before they
    validate the body, whatever it holds. *)
Theorem unknown_id_not_found (id : string) (rq : request)
        (c : list User.doc) :
  grouped_hex_layout id ->
  User.lookup (User.ById id) c = None ->
  takes_id id rq ->
  response_of rq c = failure 404 "User not found" /\ store_after rq c = c.
Proof.
  intros Hid L Hrq. apply exec_of_layout in Hid.
  unfold response_of, store_after.
  destruct Hrq; unfold_handler; rewrite Hid; cbn; rewrite L; cbn;
    split; reflexivity.
Qed.

Lemma unknown_id_not_found_witness :
  response_of (ReplaceById id_2 (Fields (JStr "") JNull (JNum (NInt 0))) 3000)
              [john_doc]
  = failure 404 "User not found"
  /\ store_after (ReplaceById id_2 (Fields (JStr "") JNull (JNum (NInt 0))) 3000)
                 [john_doc] = [john_doc].
Proof.
  apply (unknown_id_not_found id_2).
  - apply uuidRegex_exec_iff. reflexivity.
  - reflexivity.
  - constructor.
Defined.





(** X13: a Create of valid string fields with a free email but an id a
    document already has is refused by the unique index on [id] at the
    save: the answer is 500 and nothing is persisted. *)
Theorem create_repeated_id_500 (b : fields) (uuid : string) (now : Z)
        (c : list User.doc) (e : string) :
  validateUser b false = Normal Valid ->
  f_email b = JStr e ->
  User.lookup (User.ByEmail (JS.toLowerCase e)) c = None ->
  (exists d, d ∈ c /\ User.id d = uuid) ->
  serve (Create b uuid now) c
  = (internal_error, c, [FindOne (User.ByEmail (JS.toLowerCase e)); Save]).
Proof.
  intros V E Le (d & Hin & Hd).
  rewrite serve_create. unfold create_normal_form. rewrite V, E.
  apply validateUser_create_valid in V as ((n & -> & _) & _ & (z & -> & _)).
  rewrite Le.
  destruct (lookup_from_is_Some (User.ById uuid) 0 c d Hin) as (j & d' & L).
  { unfold User.matches. rewrite Hd. apply String.eqb_refl. }
  unfold User.lookup. now rewrite L.
Qed.

Lemma create_repeated_id_500_witness :
  serve (Create (Fields (JStr "Ann") (JStr "ann@x.org") (JNum (NInt 30)))
                id_1 4000) [john_doc]
  = (internal_error, [john_doc], [FindOne (User.ByEmail "ann@x.org"); Save]).
Proof.
  apply (create_repeated_id_500 _ id_1 4000 [john_doc] "ann@x.org").
  - reflexivity.
  - reflexivity.
  - reflexivity.
  - exists john_doc. split; [left|reflexivity].
Defined.

(** ** What every request keeps *)

Ltac by_normal_form_cases b c id :=
  repeat match goal with
         | |- context [RegExp.exec uuidRegex id] =>
             destruct (RegExp.exec uuidRegex id); cbn
         | |- context [User.lookup ?f c] =>
             destruct (User.lookup f c) as [[? ?]|]; cbn
         | |- context [validateUser b ?m] =>
             destruct (validateUser b m) as [[|?]|]; cbn
         | |- context [String.eqb ?x ?y] => destruct (String.eqb x y); cbn
         | |- context [match f_name b with _ => _ end] =>
             destruct (f_name b) as [| | | |?| |]; cbn
         | |- context [match f_email b with _ => _ end] =>
             destruct (f_email b) as [| | | |?| |]; cbn
         | |- context [match f_age b with _ => _ end] =>
             destruct (f_age b) as [| | |[?|?]| | |]; cbn
         end.

(** X14: every response is a well-formed envelope: a success has status
    200 or 201 and a message; a failure has status 400, 404 or 500, an
    error text, no data and no count. *)
Theorem responses_are_well_formed (rq : request) (c : list User.doc) :
  well_formed_envelope (response_of rq c).
Proof.
  unfold response_of, well_formed_envelope.
  destruct rq as [b uuid now| |id|id b now|id b now|id].
  - rewrite serve_create. unfold create_normal_form.
    by_normal_form_cases b c uuid; cbn; eauto 10.
  - unfold_handler. cbn. eauto 10.
  - unfold_handler. by_normal_form_cases tt c id; cbn; eauto 10.
  - rewrite serve_put. unfold update_normal_form.
    by_normal_form_cases b c id; cbn; eauto 10.
  - rewrite serve_patch. unfold update_normal_form.
    by_normal_form_cases b c id; cbn; eauto 10.
  - unfold_handler. by_normal_form_cases tt c id; cbn; eauto 10.
Qed.

(** X15: a request answered with [success: false] (a 400, 404 or 500)
    leaves the collection exactly as it was. *)
Theorem failed_request_changes_nothing (rq : request) (c : list User.doc) :
  success (response_of rq c) = false -> store_after rq c = c.
Proof.
  unfold response_of, store_after.
  destruct rq as [b uuid now| |id|id b now|id b now|id].
  - rewrite serve_create. unfold create_normal_form.
    by_normal_form_cases b c uuid; cbn; congruence.
  - unfold_handler. cbn. congruence.
  - unfold_handler. by_normal_form_cases tt c id; cbn; congruence.
  - rewrite serve_put. unfold update_normal_form.
    by_normal_form_cases b c id; cbn; congruence.
  - rewrite serve_patch. unfold update_normal_form.
    by_normal_form_cases b c id; cbn; congruence.
  - unfold_handler. by_normal_form_cases tt c id; cbn; congruence.
Qed.

Lemma failed_request_changes_nothing_witness :
  store_after (Create (Fields (JStr "Ann") (JStr "not an email") (JNum (NInt 30)))
                      id_2 4000) [john_doc] = [john_doc].
Proof. apply failed_request_changes_nothing. reflexivity. Defined.

(** X16: the number of documents changes only as the response says: a
    201 of Create adds one, a 200 of DeleteById removes one, and ListAll,
    GetById, ReplaceById and PatchById never change it. *)
Theorem document_count (rq : request) (c : list User.doc) :
  length (store_after rq c) = count_after rq (response_of rq c) (length c).
Proof.
  unfold response_of, store_after, count_after.
  destruct rq as [b uuid now| |id|id b now|id b now|id].
  - rewrite serve_create. unfold create_normal_form.
    by_normal_form_cases b c uuid; cbn; try reflexivity.
    rewrite length_app. cbn. lia.
  - reflexivity.
  - unfold_handler. by_normal_form_cases tt c id; reflexivity.
  - rewrite serve_put. unfold update_normal_form.
    by_normal_form_cases b c id; cbn; rewrite ?length_insert; reflexivity.
  - rewrite serve_patch. unfold update_normal_form.
    by_normal_form_cases b c id; cbn; rewrite ?length_insert; reflexivity.
  - unfold_handler.
    destruct (RegExp.exec uuidRegex id); cbn; [|reflexivity].
    destruct (User.lookup (User.ById id) c) as [[i d]|] eqn:L; cbn;
      [|reflexivity].
    apply lookup_Some in L as [Li _].
    rewrite length_delete by eauto. apply lookup_lt_Some in Li. lia.
Qed.

(** X17: ListAll answers 200 with every document in insertion order and
    their number, reading the collection once; after a 201 of Create the
    created document is the last of the list. *)
Theorem list_after_create (b : fields) (uuid : string) (now : Z)
        (c : list User.doc) :
  status (response_of (Create b uuid now) c) = 201%nat ->
  exists d,
    data (response_of (Create b uuid now) c) = One d
    /\ serve ListAll (store_after (Create b uuid now) c)
       = (Response 200 true (Some "Users retrieved successfully") None
                   (Many (c ++ [d])) (Some (S (length c))),
          c ++ [d], [Find]).
Proof.
  unfold response_of, store_after. rewrite serve_create.
  unfold create_normal_form.
  by_normal_form_cases b c uuid; cbn; try discriminate.
  intros _. eexists. split; [reflexivity|].
  unfold_handler. cbn. rewrite length_app. cbn.
  do 4 f_equal. lia.
Qed.

Lemma list_after_create_witness :
  exists d,
    data (response_of (Create john id_1 1000) []) = One d
    /\ serve ListAll (store_after (Create john id_1 1000) [])
       = (Response 200 true (Some "Users retrieved successfully") None
                   (Many ([] ++ [d])) (Some 1%nat),
          [] ++ [d], [Find]).
Proof. apply list_after_create. reflexivity. Defined.

(** X18: ReplaceById and PatchById never touch an id or a createdAt, and
    change no document other than the one the id names. *)
Theorem update_frame (patch : bool) (id : string) (b : fields) (now : Z)
        (c : list User.doc) :
  let c' := store_after (update_request patch id b now) c in
  User.id <$> c' = User.id <$> c
  /\ User.createdAt <$> c' = User.createdAt <$> c
  /\ (forall i old j,
        User.lookup (User.ById id) c = Some (i, old) ->
        j <> i -> c' !! j = c !! j).
Proof.
  intros c'. unfold c', store_after. rewrite serve_update.
  unfold update_normal_form.
  destruct (RegExp.exec uuidRegex id); cbn; [|auto].
  destruct (User.lookup (User.ById id) c) as [[i user]|] eqn:L; cbn; [|auto].
  apply lookup_Some in L as [Li _].
  assert (K : User.id <$> <[i := merged user b now]> c = User.id <$> c
              /\ User.createdAt <$> <[i := merged user b now]> c
                 = User.createdAt <$> c
              /\ (forall i0 old j,
                    Some (i, user) = Some (i0, old) -> j <> i0 ->
                    <[i := merged user b now]> c !! j = c !! j)).
  { split; [|split].
    - rewrite list_fmap_insert, merged_id. apply list_insert_id.
      now rewrite list_lookup_fmap, Li.
    - rewrite list_fmap_insert, merged_createdAt. apply list_insert_id.
      now rewrite list_lookup_fmap, Li.
    - intros i0 old j [= <- <-] Hj. now apply list_lookup_insert_ne. }
  destruct (validateUser b true) as [[|err]|]; cbn; auto.
  destruct (f_email b) as [| | | |e| |]; cbn; auto.
  destruct (String.eqb (JS.toLowerCase e) (User.email user)); cbn; auto.
  destruct (User.lookup (User.ByEmail (JS.toLowerCase e)) c); cbn; auto.
Qed.

(** ** Stored fields stay in range *)

Lemma trimStart_length s :
  (String.length (JS.trimStart s) <= String.length s)%nat.
Proof.
  induction s as [|c s IH]; simpl; [lia|].
  destruct (JS.is_space c); simpl; lia.
Qed.

Lemma trimEnd_length s :
  (String.length (JS.trimEnd s) <= String.length s)%nat.
Proof.
  induction s as [|c s IH]; simpl; [lia|].
  destruct (JS.trimEnd s); [destruct (JS.is_space c)|]; simpl in *; lia.
Qed.

Lemma trim_length s : (String.length (JS.trim s) <= String.length s)%nat.
Proof.
  unfold JS.trim. pose proof (trimEnd_length (JS.trimStart s)).
  pose proof (trimStart_length s). lia.
Qed.

Lemma trimEnd_idem s : JS.trimEnd (JS.trimEnd s) = JS.trimEnd s.
Proof.
  induction s as [|c s IH]; simpl; [reflexivity|].
  destruct (JS.trimEnd s) as [|c' t] eqn:E.
  - destruct (JS.is_space c) eqn:Hc; simpl; [reflexivity|now rewrite Hc].
  - simpl. simpl in IH. now rewrite IH.
Qed.

Lemma trimStart_starts_clean s : starts_clean (JS.trimStart s).
Proof.
  induction s as [|c s IH]; simpl; [exact I|].
  destruct (JS.is_space c) eqn:Hc; [exact IH|exact Hc].
Qed.

Lemma trimStart_of_clean s : starts_clean s -> JS.trimStart s = s.
Proof. destruct s as [|c s]; simpl; [reflexivity|]. now intros ->. Qed.

Lemma trimEnd_starts_clean s : starts_clean s -> starts_clean (JS.trimEnd s).
Proof.
  destruct s as [|c s]; simpl; [auto|]. intros Hc.
  destruct (JS.trimEnd s); [rewrite Hc|]; exact Hc.
Qed.

Lemma trim_idem s : JS.trim (JS.trim s) = JS.trim s.
Proof.
  unfold JS.trim.
  rewrite (trimStart_of_clean (JS.trimEnd (JS.trimStart s))).
  - apply trimEnd_idem.
  - apply trimEnd_starts_clean, trimStart_starts_clean.
Qed.

Lemma valid_name_stored s :
  isValidName (JStr s) = true ->
  (0 < String.length (JS.trim s) <= 100)%nat.
Proof.
  intros H. apply isValidName_iff in H as [H1 H2].
  pose proof (trim_length s). lia.
Qed.

Lemma merged_in_range b now old :
  validateUser b true = Normal Valid ->
  f_email b = JUndefined \/ (exists e, f_email b = JStr e) ->
  doc_in_range old -> doc_in_range (merged old b now).
Proof.
  intros V Hs [R1 R2 R3 R4 R5].
  apply validateUser_update_valid in V as (Hn & He & Ha).
  split.
  - rewrite merged_name.
    destruct Hn as [->|(s & -> & _)]; [exact R1|apply trim_idem].
  - rewrite merged_name.
    destruct Hn as [->|(s & -> & Hv)]; [exact R2|now apply valid_name_stored].
  - rewrite merged_email.
    destruct Hs as [->|(e & E)]; [exact R3|]. rewrite E in *.
    destruct He as [He|He]; [discriminate|].
    cbv beta iota. rewrite isValidEmail_toLowerCase. exact He.
  - rewrite merged_email.
    destruct Hs as [->|(e & ->)]; [exact R4|apply toLowerCase_idem].
  - rewrite merged_age.
    destruct Ha as [->|(z & -> & Hz)]; [exact R5|exact Hz].
Qed.

Lemma update_normal_form_range id b now c :
  Forall doc_in_range c ->
  Forall doc_in_range (snd (fst (update_normal_form id b now c))).
Proof.
  intros Hc. unfold update_normal_form.
  destruct (RegExp.exec uuidRegex id); cbn; [|exact Hc].
  destruct (User.lookup (User.ById id) c) as [[i user]|] eqn:L; cbn;
    [|exact Hc].
  apply lookup_Some in L as [Li _].
  assert (Hu : doc_in_range user).
  { rewrite Forall_forall in Hc. apply Hc, list_elem_of_lookup. eauto. }
  destruct (validateUser b true) as [[|err]|] eqn:V; cbn; try exact Hc.
  destruct (f_email b) as [| | | |e| |] eqn:E; cbn; try exact Hc.
  - apply Forall_insert; [exact Hc|]. apply merged_in_range; auto.
  - destruct (String.eqb (JS.toLowerCase e) (User.email user)); cbn.
    + apply Forall_insert; [exact Hc|]. apply merged_in_range; eauto.
    + destruct (User.lookup (User.ByEmail (JS.toLowerCase e)) c); cbn;
        [exact Hc|].
      apply Forall_insert; [exact Hc|]. apply merged_in_range; eauto.
Qed.

Lemma create_normal_form_range b uuid now c :
  Forall doc_in_range c ->
  Forall doc_in_range (snd (fst (create_normal_form b uuid now c))).
Proof.
  intros Hc. unfold create_normal_form.
  destruct (validateUser b false) as [[|err]|] eqn:V; cbn; try exact Hc.
  apply validateUser_create_valid in V as ((n & En & Hn) & He & (z & Ea & Hz)).
  rewrite En, Ea.
  destruct (f_email b) as [| | | |e| |]; cbn; try exact Hc.
  destruct (User.lookup (User.ByEmail (JS.toLowerCase e)) c); cbn;
    [exact Hc|].
  destruct (User.lookup (User.ById uuid) c); cbn; [exact Hc|].
  apply Forall_app. split; [exact Hc|]. constructor; [|constructor].
  split; cbn [User.name User.email User.age].
  - apply trim_idem.
  - now apply valid_name_stored.
  - rewrite isValidEmail_toLowerCase. exact He.
  - apply toLowerCase_idem.
  - exact Hz.
Qed.

Lemma serve_range rq c :
  Forall doc_in_range c -> Forall doc_in_range (store_after rq c).
Proof.
  intros Hc. unfold store_after.
  destruct rq as [b uuid now| |id|id b now|id b now|id].
  - rewrite serve_create. now apply create_normal_form_range.
  - exact Hc.
  - unfold_handler. destruct (RegExp.exec uuidRegex id); cbn; [|exact Hc].
    destruct (User.lookup (User.ById id) c) as [[i user]|]; exact Hc.
  - rewrite serve_put. now apply update_normal_form_range.
  - rewrite serve_patch. now apply update_normal_form_range.
  - unfold_handler. destruct (RegExp.exec uuidRegex id); cbn; [|exact Hc].
    destruct (User.lookup (User.ById id) c) as [[i user]|]; cbn;
      [|exact Hc].
    now apply Forall_delete.
Qed.

(** X19: starting from the empty collection, after any sequence of
    requests every stored document has a trimmed name of 1 to 100
    characters, a lower-case email that [isValidEmail] accepts, and an
    age from 1 to 149. *)
Theorem stored_fields_in_range (rqs : list request) :
  Forall doc_in_range (run rqs []).
Proof.
  assert (G : forall c, Forall doc_in_range c ->
                        Forall doc_in_range (run rqs c)).
  { induction rqs as [|rq rqs IH]; intros c Hc; simpl; [exact Hc|].
    apply IH. now apply serve_range. }
  apply G. constructor.
Qed.
